(** * amazon-book-analyzer: the extraction and scoring logic of
      [backend/server.js], embedded in Rocq.

    Strings are JavaScript strings: sequences of UTF-16 code units.
    Regular expressions are interpreted by a backtracking matcher
    with the priorities of the ECMAScript [RegExp] engine.  Numbers
    read by [parseInt] are mathematical integers or [NaN]; the code
    only ever compares them with constants below 2^53, where the
    double and the integer agree on every comparison. *)

From Stdlib Require Import List Bool Arith ZArith NArith QArith Lia.
From Stdlib Require Import Ascii String Permutation.
Import ListNotations.
Close Scope Q_scope.

Set Implicit Arguments.

(** ** Strings *)

Module JsString.

Definition code_unit := N.
Definition jsstring := list code_unit.

(** A literal of the source, as code units. *)
Definition units (s : string) : jsstring :=
  map N_of_ascii (list_ascii_of_string s).

Definition code (a : ascii) : code_unit := N_of_ascii a.

(** LineTerminator: LF, CR, LS, PS. *)
Definition line_terminator (c : code_unit) : bool :=
  ((c =? 10) || (c =? 13) || (c =? 8232) || (c =? 8233))%N.

(** WhiteSpace or LineTerminator: what [\s] matches and what
    [String.prototype.trim] removes. *)
Definition white_space (c : code_unit) : bool :=
  ((c =? 9) || (c =? 11) || (c =? 12) || (c =? 32) || (c =? 160)
   || (c =? 5760) || ((8192 <=? c) && (c <=? 8202))
   || (c =? 8239) || (c =? 8287) || (c =? 12288) || (c =? 65279))%N
  || line_terminator c.

Definition digit (c : code_unit) : bool := ((48 <=? c) && (c <=? 57))%N.

Definition chr (a : ascii) (c : code_unit) : bool := (c =? code a)%N.

Fixpoint drop_ws (s : jsstring) : jsstring :=
  match s with
  | c :: s' => if white_space c then drop_ws s' else s
  | [] => []
  end.

(** [s.trim()] *)
Definition trim (s : jsstring) : jsstring :=
  rev (drop_ws (rev (drop_ws s))).

(** [s.replace(/,/g, '')] *)
Definition strip_commas (s : jsstring) : jsstring :=
  filter (fun c => negb (chr "," c)) s.

End JsString.
Import JsString.

(** ** Numbers *)

Module JsNumber.

(** The result of [parseInt]: [NaN], or the number that the digits
    write.  [Num z] holds the integer [z] itself; the Number of the
    language is the double nearest to [z], [Infinity] beyond the
    range of the doubles.  The code tests such a number only against
    constants below 2^53, and on those tests the integer and the
    double agree; nothing below rests on [z] being the exact value
    of the Number. *)
Inductive jsnum := NaN | Num (z : Z).

(** The result of [parseFloat] on a decimal numeral: [NaN], or the
    number that the numeral writes, kept as the exact rational where
    the language has the nearest double. *)
Inductive jsfloat := FNaN | FNum (q : Q).

Definition digit_val (c : code_unit) : Z := Z.of_N c - 48.

(** Reads the leading decimal digits of [s], accumulating their
    value; returns the value, the number of digits read and the
    rest of the string. *)
Fixpoint read_digits (s : jsstring) (acc : Z) (n : nat) : Z * nat * jsstring :=
  match s with
  | c :: s' =>
      if digit c then read_digits s' (10 * acc + digit_val c) (S n)
      else (acc, n, s)
  | [] => (acc, n, [])
  end.

(** [parseInt(s)] for a string without leading white space, sign
    or radix prefix (every argument in server.js is a digit group
    with its commas removed): the leading digits in base 10, [NaN]
    when there is none. *)
Definition parseInt (s : jsstring) : jsnum :=
  match read_digits s 0 0 with
  | (_, O, _) => NaN
  | (v, S _, _) => Num v
  end.

(** [parseFloat(s)] for a string over digits and dots: the longest
    prefix of the form digits, digits.digits, digits. or .digits;
    [NaN] when no digit is read. *)
Definition parseFloat (s : jsstring) : jsfloat :=
  match read_digits s 0 0 with
  | (v, n, rest) =>
      match rest with
      | c :: rest' =>
          if chr "." c then
            match read_digits rest' 0 0 with
            | (f, k, _) =>
                match n, k with
                | O, O => FNaN
                | _, _ => FNum (Qplus (inject_Z v) (Qmake f (Pos.pow 10 (Pos.of_nat k))))
                end
            end
          else match n with O => FNaN | S _ => FNum (inject_Z v) end
      | [] => match n with O => FNaN | S _ => FNum (inject_Z v) end
      end
  end.

(** Comparisons: every comparison with [NaN] is false. *)
Definition js_le (a b : jsnum) : bool :=
  match a, b with Num x, Num y => (x <=? y)%Z | _, _ => false end.
Definition js_lt (a b : jsnum) : bool :=
  match a, b with Num x, Num y => (x <? y)%Z | _, _ => false end.
Definition js_ge (a b : jsnum) : bool := js_le b a.
Definition js_gt (a b : jsnum) : bool := js_lt b a.
(** [a === b] *)
Definition js_eq (a b : jsnum) : bool :=
  match a, b with Num x, Num y => (x =? y)%Z | _, _ => false end.

End JsNumber.
Import JsNumber.

(** ** Regular expressions *)

Module RegExp.

(** The fragment of the syntax that server.js uses: the stars
    and the pluses are applied to single-character atoms only. *)
Inductive regex :=
| Eps
| Cls (p : code_unit -> bool)                 (* one code unit of a class *)
| Cat (r1 r2 : regex)                    (* r1 r2 *)
| Alt (r1 r2 : regex)                    (* r1|r2 *)
| Star (greedy : bool) (p : code_unit -> bool). (* c* and c*? *)

Definition Plus (p : code_unit -> bool) : regex := Cat (Cls p) (Star true p).
(** [r?], greedy: first with, then without. *)
Definition Opt (r : regex) : regex := Alt r Eps.

Section Matcher.
Variable R : Type.

(** [c*]: as many as possible first, giving one back at a time. *)
Fixpoint star_greedy (p : code_unit -> bool) (s : jsstring)
         (k : jsstring -> option R) : option R :=
  match s with
  | c :: s' =>
      if p c then
        match star_greedy p s' k with
        | Some r => Some r
        | None => k s
        end
      else k s
  | [] => k []
  end.

(** [c*?]: as few as possible first, taking one more at a time. *)
Fixpoint star_lazy (p : code_unit -> bool) (s : jsstring)
         (k : jsstring -> option R) : option R :=
  match k s with
  | Some r => Some r
  | None =>
      match s with
      | c :: s' => if p c then star_lazy p s' k else None
      | [] => None
      end
  end.

(** Backtracking matcher in continuation-passing style: [k] is
    what remains to be matched after [r]. *)
Fixpoint run (r : regex) (s : jsstring) (k : jsstring -> option R)
  : option R :=
  match r with
  | Eps => k s
  | Cls p =>
      match s with
      | c :: s' => if p c then k s' else None
      | [] => None
      end
  | Cat r1 r2 => run r1 s (fun s1 => run r2 s1 k)
  | Alt r1 r2 =>
      match run r1 s k with
      | Some x => Some x
      | None => run r2 s k
      end
  | Star true p => star_greedy p s k
  | Star false p => star_lazy p s k
  end.
End Matcher.

(** Every pattern of server.js is a concatenation with its one
    capture group at top level: what precedes the group, the
    group, what follows it. *)
Record pattern := Pattern { before : regex; group : regex; after : regex }.

(** The pattern matched at the start of [s]: the text of group 1. *)
Definition match_here (pat : pattern) (s : jsstring) : option jsstring :=
  run (before pat) s (fun s1 =>
    run (group pat) s1 (fun s2 =>
      run (after pat) s2 (fun _ =>
        Some (firstn (List.length s1 - List.length s2) s1)))).

(** [text.match(pattern)] without the g flag: the match at the
    leftmost position that has one; the result is [match[1]]. *)
Fixpoint exec (pat : pattern) (s : jsstring) : option jsstring :=
  match match_here pat s with
  | Some c => Some c
  | None =>
      match s with
      | _ :: s' => exec pat s'
      | [] => None
      end
  end.

(** Canonicalize of the i flag on the ASCII range: a lower-case
    letter becomes its capital.  A code unit above 127 is never
    canonicalized into the ASCII range, so it stays apart from
    every letter of the patterns. *)
Definition upper (c : code_unit) : code_unit :=
  if ((97 <=? c) && (c <=? 122))%N then (c - 32)%N else c.

(** A letter under the i flag: either case of it. *)
Definition ci (a : ascii) (c : code_unit) : bool :=
  (upper c =? upper (code a))%N.

(** A word of letters, under the i flag or not. *)
Fixpoint word (i : bool) (l : list ascii) : regex :=
  match l with
  | [] => Eps
  | a :: l' => Cat (Cls (if i then ci a else chr a)) (word i l')
  end.
Definition lit (s : string) : regex := word false (list_ascii_of_string s).
Definition liti (s : string) : regex := word true (list_ascii_of_string s).

(** A concatenation, written as the list of its parts. *)
Fixpoint cats (l : list regex) : regex :=
  match l with
  | [] => Eps
  | [r] => r
  | r :: l' => Cat r (cats l')
  end.

(** [s] does not go on with a code unit of the class [p]. *)
Definition stops (p : code_unit -> bool) (s : jsstring) : bool :=
  match s with c :: _ => negb (p c) | [] => true end.

Definition ws : code_unit -> bool := white_space.
Definition dot (c : code_unit) : bool := negb (line_terminator c).
Definition digit_or_comma (c : code_unit) : bool := digit c || chr "," c.
Definition digit_or_dot (c : code_unit) : bool := digit c || chr "." c.

End RegExp.
Import RegExp.

(** ** The document: what the scraper reads of a search result *)

Module Cheerio.

(** A selection: the text of each node it holds, in document order. *)
Definition selection := list jsstring.

Definition first (sel : selection) : selection := firstn 1 sel.
Definition text_of (sel : selection) : jsstring := List.concat sel.

(** A selection is an object, and every object is truthy. *)
Definition truthy (sel : selection) : bool := true.
(** [a || b] on selections. *)
Definition or_else (a b : selection) : selection :=
  if truthy a then a else b.

(** One [[data-component-type="s-search-result"]] element. *)
Record fragment := Fragment {
  text : jsstring;                  (* element.text() *)
  h2_a_span : selection;            (* element.find('h2 a span') *)
  h2_a_text_normal : selection;     (* element.find('h2 .a-text-normal') *)
  h2_a : selection;                 (* element.find('h2 a') *)
  data_asin : option jsstring;      (* element.attr('data-asin') *)
  a_price_whole : selection;        (* element.find('.a-price-whole') *)
  a_icon_alt : selection            (* element.find('.a-icon-alt') *)
}.

(** The rendered page. *)
Record page := Page {
  info_bar : jsstring;   (* $('span[data-component-type="s-result-info-bar"]').text() *)
  section_small : jsstring; (* $('.a-section.a-spacing-small.a-spacing-top-small').text() *)
  bookElements : list fragment
}.

End Cheerio.
Import Cheerio.

(** ** scrapeAmazonData: the extraction *)

Module Scraper.

Record item := Item {
  title : jsstring;
  asin : jsstring;
  price : jsfloat;
  bsr : jsnum;
  rating : jsfloat;
  reviews : jsnum
}.

Definition digits_commas : regex := Plus digit_or_comma.   (* [0-9,]+ *)
Definition sharp : regex := Cls (chr "#").                 (* [#] *)

(** [Best\s*Sellers?\s*Rank.*?] under the i flag *)
Definition best_sellers_rank : regex :=
  cats [liti "Best"; Star true ws; liti "Seller"; Opt (Cls (ci "s"));
        Star true ws; liti "Rank"; Star false dot].

(** [/Best\s*Sellers?\s*Rank.*?[#]([0-9,]+)/i] *)
Definition bsr1 : pattern :=
  Pattern (Cat best_sellers_rank sharp) digits_commas Eps.
(** [/[#]([0-9,]+)\s+in\s+Books/i] *)
Definition bsr2 : pattern :=
  Pattern sharp digits_commas (cats [Plus ws; liti "in"; Plus ws; liti "Books"]).
(** [/Amazon\s*Best\s*Sellers?\s*Rank.*?[#]([0-9,]+)/i] *)
Definition bsr3 : pattern :=
  Pattern (cats [liti "Amazon"; Star true ws; Cat best_sellers_rank sharp])
          digits_commas Eps.
(** [/[#]([0-9,]+)/] *)
Definition bsr4 : pattern := Pattern sharp digits_commas Eps.

Definition bsrPatterns : list pattern := [bsr1; bsr2; bsr3; bsr4].

(** [for (const pattern of bsrPatterns) { ... break; }] *)
Fixpoint bsr_loop (patterns : list pattern) (text : jsstring) (bsr : jsnum)
  : jsnum :=
  match patterns with
  | [] => bsr
  | pattern :: rest =>
      match exec pattern text with
      | Some m1 => parseInt (strip_commas m1)      (* break *)
      | None => bsr_loop rest text bsr
      end
  end.

Definition extract_bsr_with (patterns : list pattern) (text : jsstring) : jsnum :=
  bsr_loop patterns text (Num 999999).

Definition extract_bsr : jsstring -> jsnum := extract_bsr_with bsrPatterns.

(** [(?:ratings?|reviews?)] under the i flag *)
Definition ratings_or_reviews : regex :=
  Alt (Cat (liti "rating") (Opt (Cls (ci "s"))))
      (Cat (liti "review") (Opt (Cls (ci "s")))).

(** [/\(([\d,]+)\s*(?:ratings?|reviews?)\)/i] *)
Definition parenPattern : pattern :=
  Pattern (Cls (chr "(")) digits_commas
          (cats [Star true ws; ratings_or_reviews; Cls (chr ")")]).
(** [/([\d,]+)\s+global\s+(?:ratings?|reviews?)/i] *)
Definition globalPattern : pattern :=
  Pattern Eps digits_commas
          (cats [Plus ws; liti "global"; Plus ws; ratings_or_reviews]).
(** [/([\d,]+)\s+(?:ratings?|reviews?)/i] *)
Definition reviewPattern : pattern :=
  Pattern Eps digits_commas (cats [Plus ws; ratings_or_reviews]).

(** One of the three steps: [if (m) reviews = parseInt(...)]. *)
Definition review_step (pat : pattern) (text : jsstring) (reviews : jsnum)
  : jsnum :=
  match exec pat text with
  | Some m1 => parseInt (strip_commas m1)
  | None => reviews
  end.

Definition extract_reviews_with (p1 p2 p3 : pattern) (text : jsstring) : jsnum :=
  let reviews := Num 0 in
  let reviews := review_step p1 text reviews in
  let reviews :=
    if js_eq reviews (Num 0) then review_step p2 text reviews
    else reviews in
  let reviews :=
    if js_eq reviews (Num 0) then review_step p3 text reviews
    else reviews in
  reviews.

Definition extract_reviews : jsstring -> jsnum :=
  extract_reviews_with parenPattern globalPattern reviewPattern.

(** The pattern of the rating, no flag; written here with blanks
    between its parts: [/( \d+ \.? \d* ) \s* out \s* of/] *)
Definition ratingPattern : pattern :=
  Pattern Eps
          (cats [Plus digit; Opt (Cls (chr ".")); Star true digit])
          (cats [Star true ws; lit "out"; Star true ws; lit "of"]).

Definition extract_rating (f : fragment) : jsfloat :=
  let rating := FNum 0 in
  let ratingElement := a_icon_alt f in
  if 0 <? List.length ratingElement then
    match exec ratingPattern (text_of ratingElement) with
    | Some m1 => parseFloat m1
    | None => rating
    end
  else rating.

(** [/[\d.]+/]: the whole match is read. *)
Definition pricePattern : pattern := Pattern Eps (Plus digit_or_dot) Eps.

Definition extract_price (f : fragment) : jsfloat :=
  let price := FNum 0 in
  let priceElement := a_price_whole f in
  if 0 <? List.length priceElement then
    match exec pricePattern (text_of priceElement) with
    | Some m0 => parseFloat m0
    | None => price
    end
  else price.

(** [element.attr('data-asin') || 'N/A'] *)
Definition extract_asin (f : fragment) : jsstring :=
  match data_asin f with
  | Some (c :: s) => c :: s
  | Some [] | None => units "N/A"
  end.

Definition extract_title (f : fragment) : jsstring :=
  let title := [] in
  let titleElement :=
    or_else (or_else (first (h2_a_span f)) (first (h2_a_text_normal f)))
            (first (h2_a f)) in
  if 0 <? List.length titleElement then trim (text_of titleElement)
  else title.

(** The body of the loop for one element: [None] is [continue]. *)
Definition extract_item (f : fragment) : option item :=
  let title := extract_title f in
  if match title with [] => true | _ => false end
     || (List.length title <? 5)
  then None
  else Some {| title := title;
               asin := extract_asin f;
               price := extract_price f;
               bsr := extract_bsr (text f);
               rating := extract_rating f;
               reviews := extract_reviews (text f) |}.

(** One turn of [for (let i = 0; i < Math.min(bookElements.length, 20); i++)]
    with [items.push]. *)
Definition loop_body (els : list fragment) (items : list item) (i : nat)
  : list item :=
  match nth_error els i with
  | Some element =>
      match extract_item element with
      | Some it => items ++ [it]
      | None => items
      end
  | None => items
  end.

Definition scrape_items (els : list fragment) : list item :=
  fold_left (loop_body els) (List.seq 0 (Nat.min (List.length els) 20)) [].

(** [/of\s+(?:over\s+)?([0-9,]+)\s+results/i] *)
Definition totalPattern : pattern :=
  Pattern (cats [liti "of"; Plus ws; Opt (Cat (liti "over") (Plus ws))])
          digits_commas
          (cats [Plus ws; liti "results"]).

Definition extract_total (p : page) : jsnum :=
  let totalResults := Num 0 in
  let totalText :=
    match info_bar p with [] => section_small p | t => t end in
  match totalText with
  | [] => totalResults
  | _ =>
      match exec totalPattern totalText with
      | Some m1 => parseInt (strip_commas m1)
      | None => totalResults
      end
  end.

(** What [scrapeAmazonData] returns, less the three averages
    (which no score reads). *)
Record data := Data {
  items : list item;
  totalResults : jsnum;
  firstPageCount : nat
}.

Definition scrape (p : page) : data :=
  let items := scrape_items (bookElements p) in
  {| items := items;
     totalResults := extract_total p;
     firstPageCount := List.length items |}.

End Scraper.
Import Scraper.

(** ** calculateScores *)

Module Scoring.

Inductive tier := green | yellow | red.

(** [{ score, value }] and [{ score, value, count }]:
    popularity carries no count. *)
Record tier_score := TierScore {
  score : tier;
  value : Z;
  count : option nat
}.

Definition calculatePopularity (totalResults : jsnum) : tier_score :=
  if js_le totalResults (Num 1000) then
    {| score := green; value := 100; count := None |}
  else if js_le totalResults (Num 3000) then
    {| score := yellow; value := 50; count := None |}
  else
    {| score := red; value := 0; count := None |}.

(** [item.bsr > 0 && item.bsr <= 30000 && item.reviews <= 200] *)
Definition profitable (it : item) : bool :=
  js_gt (bsr it) (Num 0) && js_le (bsr it) (Num 30000)
  && js_le (reviews it) (Num 200).

Definition calculateProfitability (items : list item) : tier_score :=
  let profitableBooks := List.length (filter profitable items) in
  if 6 <=? profitableBooks then
    {| score := green; value := 100; count := Some profitableBooks |}
  else if 3 <=? profitableBooks then
    {| score := yellow; value := 50; count := Some profitableBooks |}
  else
    {| score := red; value := 0; count := Some profitableBooks |}.

(** [item.reviews >= 500] *)
Definition competitive (it : item) : bool := js_ge (reviews it) (Num 500).

Definition calculateCompetition (items : list item) : tier_score :=
  let competitiveBooks := List.length (filter competitive items) in
  if competitiveBooks <=? 3 then
    {| score := green; value := 100; count := Some competitiveBooks |}
  else if competitiveBooks <=? 6 then
    {| score := yellow; value := 50; count := Some competitiveBooks |}
  else
    {| score := red; value := 0; count := Some competitiveBooks |}.

Record scores := Scores {
  popularity : tier_score;
  profitability : tier_score;
  competition : tier_score;
  overallScore : Z
}.

(** [Math.round(s / 3)] for an integer [s]: the floor of s/3 + 1/2. *)
Definition round_third (s : Z) : Z := ((2 * s + 3) / 6)%Z.

Definition calculateScores (d : data) : scores :=
  let popularity := calculatePopularity (totalResults d) in
  let profitability := calculateProfitability (items d) in
  let competition := calculateCompetition (items d) in
  {| popularity := popularity;
     profitability := profitability;
     competition := competition;
     overallScore :=
       round_third (value popularity + value profitability
                    + value competition)%Z |}.

End Scoring.
Import Scoring.

(** ** GET /api/analyze *)

Module Handler.

(** [req.query.keyword]: absent, a string, or what the query
    parser builds from a repeated or bracketed parameter (an array
    or an object). *)
Inductive query_value :=
| QUndefined
| QString (s : jsstring)
| QObject.

(** [!keyword] *)
Definition not_ (keyword : query_value) : bool :=
  match keyword with
  | QUndefined => true
  | QString [] => true
  | QString (_ :: _) => false
  | QObject => false
  end.

(** What the browser does for one keyword: the step of lines
    54-88 that throws, if any, with its message, and whether
    [browser.close()] in [finally] throws in its turn. *)
Inductive outcome :=
| LaunchFails (message : jsstring)
    (* puppeteer.launch throws: there is no browser to close *)
| SetupFails (message : jsstring) (closing : option jsstring)
    (* newPage, setUserAgent, setViewport or encodeURIComponent throws *)
| PageFails (message : jsstring) (closing : option jsstring)
    (* goto or waitForSelector throws *)
| ContentFails (message : jsstring) (closing : option jsstring)
    (* page.content throws *)
| Rendered (p : page) (closing : option jsstring).

(** The error that leaves [try ... catch ... finally]: the one
    thrown by [finally] when it throws, else the one rethrown by
    [catch]. *)
Definition thrown (message : jsstring) (closing : option jsstring)
  : jsstring :=
  match closing with
  | Some m => m
  | None => message
  end.

Inductive event :=
| Launch
| Navigate (keyword : query_value)
| Close.

Inductive response :=
| BadRequest (error : jsstring)                          (* status 400 *)
| Ok (keyword : query_value) (d : data) (s : scores)     (* status 200 *)
| ServerError (error message : jsstring).                (* status 500 *)

Section Analyze.
(** The browser: for a keyword, the step that fails or the page it
    renders, and what closing it does. *)
Variable browser : query_value -> outcome.

(** [scrapeAmazonData]: the error thrown or the data, and what
    was done to the browser; [finally] closes it when it was
    launched. *)
Definition scrapeAmazonData (keyword : query_value)
  : (jsstring + data) * list event :=
  match browser keyword with
  | LaunchFails m => (inl m, [Launch])
  | SetupFails m closing => (inl (thrown m closing), [Launch; Close])
  | PageFails m closing =>
      (inl (thrown m closing), [Launch; Navigate keyword; Close])
  | ContentFails m closing =>
      (inl (thrown m closing), [Launch; Navigate keyword; Close])
  | Rendered p None => (inr (scrape p), [Launch; Navigate keyword; Close])
  | Rendered p (Some m) => (inl m, [Launch; Navigate keyword; Close])
  end.

Definition analyze (keyword : query_value) : response * list event :=
  if not_ keyword then
    (BadRequest (units "Keyword is required"), [])
  else
    match scrapeAmazonData keyword with
    | (inr d, trace) => (Ok keyword d (calculateScores d), trace)
    | (inl m, trace) =>
        (ServerError (units "Failed to analyze keyword") m, trace)
    end.
End Analyze.

End Handler.
Import Handler.

(** ** scrapeAmazonData: the averages of ranks and of review counts *)

Module Averages.

(** [a + b] *)
Definition js_add (a b : jsnum) : jsnum :=
  match a, b with
  | Num x, Num y => Num (x + y)
  | _, _ => NaN
  end.

(** [l.reduce((sum, x) => sum + x, 0)] *)
Definition sum_of (l : list jsnum) : jsnum := fold_left js_add l (Num 0).

(** [Math.round(sum / n)] for an integer [sum] and a length [n]:
    the floor of sum/n + 1/2.  The quotient of the doubles is within
    2^-53 of the true one in relative terms, and a true quotient
    that is not a half-integer stays 1/(2n) away from every
    half-integer, so for the sums and lengths of a page the double
    rounds to the same integer. *)
Definition round_div (sum : jsnum) (n : nat) : jsnum :=
  match sum with
  | Num z => Num ((2 * z + Z.of_nat n) / (2 * Z.of_nat n))
  | NaN => NaN
  end.

Definition validBSRs (items : list item) : list jsnum :=
  map bsr
      (filter (fun item => js_gt (bsr item) (Num 0)
                           && js_lt (bsr item) (Num 999999)) items).

Definition avgBSR (items : list item) : jsnum :=
  let validBSRs := validBSRs items in
  if 0 <? List.length validBSRs
  then round_div (sum_of validBSRs) (List.length validBSRs)
  else Num 0.

Definition validReviews (items : list item) : list jsnum :=
  map reviews
      (filter (fun item => js_gt (reviews item) (Num 0)
                           && js_lt (reviews item) (Num 1000000)) items).

Definition avgReviews (items : list item) : jsnum :=
  let validReviews := validReviews items in
  if 0 <? List.length validReviews
  then round_div (sum_of validReviews) (List.length validReviews)
  else Num 0.

End Averages.
Import Averages.

(** ** Notions used to state the further properties *)

Module Notions.



(** The text holds a sharp sign directly followed by a digit or a
    comma. *)
Fixpoint has_rank_mark (s : jsstring) : bool :=
  match s with
  | c :: s' =>
      (chr "#" c && negb (stops digit_or_comma s')) || has_rank_mark s'
  | [] => false
  end.

(** The pattern matches at no position of [pre] in the text
    [pre ++ rest]. *)
Fixpoint no_match_in (pat : pattern) (pre rest : jsstring) : bool :=
  match pre with
  | [] => true
  | _ :: pre' =>
      match match_here pat (pre ++ rest) with
      | Some _ => false
      | None => no_match_in pat pre' rest
      end
  end.

(** The text in which the banner is looked for:
    the info bar, or the section when the info bar is empty. *)
Definition totalText (p : page) : jsstring :=
  match info_bar p with
  | [] => section_small p
  | t => t
  end.

(** The plausible ranks and review counts of a list, as integers. *)
Definition plausible (bound : Z) (x : jsnum) : Prop :=
  exists z, x = Num z /\ (0 < z < bound)%Z.

(** The integers of a list of items that an average takes in:
    those strictly between 0 and [bound], in list order. *)
Definition values_of (key : item -> jsnum) (bound : Z) (l : list item)
  : list Z :=
  flat_map (fun it =>
              match key it with
              | Num z => if ((0 <? z) && (z <? bound))%Z then [z] else []
              | NaN => []
              end) l.

Definition total (zs : list Z) : Z := fold_right Z.add 0%Z zs.

(** The mean of integers, rounded half up; 0 for no integer. *)
Definition mean_of (zs : list Z) : jsnum :=
  match zs with
  | [] => Num 0
  | _ :: _ => Num ((2 * total zs + Z.of_nat (List.length zs))
                   / (2 * Z.of_nat (List.length zs)))
  end.

(** An item with the given rank and review count. *)
Definition listing (rank count : jsnum) : item :=
  {| title := units "A book";
     asin := units "N/A";
     price := FNum 0;
     bsr := rank;
     rating := FNum 0;
     reviews := count |}.

End Notions.
Import Notions.

(** ** The scoring rules as the specification words them *)

Module Rules.

(** "rank > 0 AND rank <= 30000 AND reviewCount <= 200" *)
Definition exploitable (it : item) : Prop :=
  exists r n, bsr it = Num r /\ reviews it = Num n
              /\ (0 < r <= 30000)%Z /\ (n <= 200)%Z.

(** "reviewCount >= 500" *)
Definition entrenched (it : item) : Prop :=
  exists n, reviews it = Num n /\ (500 <= n)%Z.

(** [counts P l n]: exactly [n] items of [l] satisfy [P]. *)
Inductive counts (P : item -> Prop) : list item -> nat -> Prop :=
| counts_nil : counts P [] 0
| counts_in it l n : P it -> counts P l n -> counts P (it :: l) (S n)
| counts_out it l n : ~ P it -> counts P l n -> counts P (it :: l) n.

End Rules.
Import Rules.

(** ** Texts and fragments used in the examples *)

Module Samples.

(** A strategy leaves the review count at 0: it does not match,
    or its digit group reads as 0. *)
Definition leaves_zero (pat : pattern) (text : jsstring) : Prop :=
  match exec pat text with
  | None => True
  | Some m1 => parseInt (strip_commas m1) = Num 0
  end.

(** A result whose heading holds the title in a node of class
    a-text-normal and has no link:
    <h2><span class="a-text-normal"> Cooking Basics </span></h2> *)
Definition heading_without_link : fragment :=
  {| text := units " Cooking Basics (1,234 ratings)";
     h2_a_span := [];
     h2_a_text_normal := [units " Cooking Basics "];
     h2_a := [];
     data_asin := Some (units "B000000001");
     a_price_whole := [];
     a_icon_alt := [] |}.

(** A result whose star label reads "9.9 out of 10". *)
Definition ten_point_label : fragment :=
  {| text := units "Cooking Basics 9.9 out of 10";
     h2_a_span := [units "Cooking Basics"];
     h2_a_text_normal := [units "Cooking Basics"];
     h2_a := [units "Cooking Basics"];
     data_asin := Some (units "B000000002");
     a_price_whole := [];
     a_icon_alt := [units "9.9 out of 10"] |}.

(** A browser whose page never renders. *)
Definition never_renders (keyword : query_value) : outcome :=
  PageFails (units "Navigation timeout of 30000 ms exceeded") None.

(** What one element adds to the list of items. *)
Definition kept (f : fragment) : list item :=
  match extract_item f with
  | Some it => [it]
  | None => []
  end.

(** A result with the given heading text and nothing else. *)
Definition titled (t : string) : fragment :=
  {| text := units t;
     h2_a_span := [units t];
     h2_a_text_normal := [units t];
     h2_a := [units t];
     data_asin := None;
     a_price_whole := [];
     a_icon_alt := [] |}.

End Samples.
Import Samples.

(** * Properties *)

(** ** The matcher *)

Module RegExpFacts.

(** [t] is what is left of [s] after some prefix. *)
Definition suffix (t s : jsstring) : Prop := exists p, s = p ++ t.

Lemma suffix_refl s : suffix s s.
Proof. now exists []. Qed.

Lemma suffix_cons c t s : suffix t s -> suffix t (c :: s).
Proof. intros [p ->]. now exists (c :: p). Qed.

Lemma suffix_trans u t s : suffix u t -> suffix t s -> suffix u s.
Proof.
  intros [p ->] [q ->]. exists (q ++ p). now rewrite app_assoc.
Qed.

Lemma suffix_length t s : suffix t s -> List.length t <= List.length s.
Proof. intros [p ->]. rewrite length_app. lia. Qed.

Create HintDb rx.
#[local] Hint Resolve suffix_refl suffix_cons suffix_trans : rx.

Section Run.
Variable R : Type.
Implicit Types (k : jsstring -> option R) (s : jsstring).

(** A successful run ends in its continuation, called on what
    is left of the input. *)
Lemma star_greedy_inv p s k x :
  star_greedy p s k = Some x -> exists t, suffix t s /\ k t = Some x.
Proof.
  induction s as [|c s IH]; simpl; intros H.
  - eauto with rx.
  - destruct (p c); [|eauto with rx].
    destruct (star_greedy p s k) eqn:E.
    + injection H as ->. destruct (IH eq_refl) as (t & Ht & Hk).
      eauto with rx.
    + eauto with rx.
Qed.

Lemma star_lazy_inv p s k x :
  star_lazy p s k = Some x -> exists t, suffix t s /\ k t = Some x.
Proof.
  induction s as [|c s IH]; simpl; intros H.
  - destruct (k []) eqn:E; [injection H as ->; eauto with rx|discriminate].
  - destruct (k (c :: s)) eqn:E; [injection H as ->; eauto with rx|].
    destruct (p c); [|discriminate].
    destruct (IH H) as (t & Ht & Hk). eauto with rx.
Qed.

Lemma run_inv r : forall s k x,
  run r s k = Some x -> exists t, suffix t s /\ k t = Some x.
Proof.
  induction r as [|p|r1 IH1 r2 IH2|r1 IH1 r2 IH2|g p]; simpl; intros s k x H.
  - eauto with rx.
  - destruct s as [|c s]; [discriminate|].
    destruct (p c); [eauto with rx|discriminate].
  - apply IH1 in H as (t1 & H1 & H).
    apply IH2 in H as (t2 & H2 & H). eauto with rx.
  - destruct (run r1 s k) eqn:E.
    + injection H as ->. eauto.
    + eauto.
  - destruct g; [eapply star_greedy_inv|eapply star_lazy_inv]; eassumption.
Qed.

(** What the greedy star consumes is a run of the class. *)
Lemma star_greedy_run p s k x :
  star_greedy p s k = Some x ->
  exists ds t, s = ds ++ t /\ forallb p ds = true /\ k t = Some x.
Proof.
  induction s as [|c s IH]; simpl; intros H.
  - now exists [], [].
  - destruct (p c) eqn:E; [|now exists [], (c :: s)].
    destruct (star_greedy p s k) eqn:F; [|now exists [], (c :: s)].
    injection H as ->. destruct (IH eq_refl) as (ds & t & -> & Hds & Hk).
    exists (c :: ds), t. simpl. now rewrite E, Hds.
Qed.

(** A class consumes one code unit of it. *)
Lemma run_cls_inv p r s k x :
  run (Cat (Cls p) r) s k = Some x ->
  exists c s', s = c :: s' /\ p c = true /\ run r s' k = Some x.
Proof.
  simpl. destruct s as [|c s]; [discriminate|].
  destruct (p c) eqn:E; [eauto|discriminate].
Qed.

(** The greedy star stops where the class does. *)
Lemma star_greedy_stop p s k :
  match s with c :: _ => p c = false | [] => True end ->
  star_greedy p s k = k s.
Proof. destruct s as [|c s]; simpl; [easy|]. now intros ->. Qed.

(** The lazy star walks over what its continuation refuses. *)
Lemma star_lazy_skip p k (mid rest : jsstring) :
  (forall m1 c m2, mid = m1 ++ c :: m2 ->
                   p c = true /\ k (c :: m2 ++ rest) = None) ->
  star_lazy p (mid ++ rest) k = star_lazy p rest k.
Proof.
  induction mid as [|c mid IH]; intros H; [reflexivity|].
  destruct (H [] c mid eq_refl) as [Hp Hk].
  change ((c :: mid) ++ rest) with (c :: mid ++ rest).
  simpl. rewrite Hk, Hp. apply IH.
  intros m1 d m2 ->. apply (H (c :: m1) d m2 eq_refl).
Qed.
End Run.

(** The greedy star takes a whole run of the class when what
    follows accepts. *)
Lemma star_greedy_all (R : Type) p (ds post : jsstring)
      (k : jsstring -> option R) x :
  forallb p ds = true -> stops p post = true -> k post = Some x ->
  star_greedy p (ds ++ post) k = Some x.
Proof.
  intros Hds Hpost Hk. induction ds as [|d ds IH]; simpl.
  - rewrite star_greedy_stop; [assumption|].
    destruct post; [exact I|]. now apply negb_true_iff in Hpost.
  - simpl in Hds. apply andb_true_iff in Hds as [-> Hds].
    now rewrite (IH Hds).
Qed.

Lemma forallb_split (A : Type) (f : A -> bool) l l1 c l2 :
  forallb f l = true -> l = l1 ++ c :: l2 -> f c = true.
Proof.
  intros H ->. rewrite forallb_app in H. apply andb_true_iff in H as [_ H].
  simpl in H. now apply andb_true_iff in H as [H _].
Qed.

Lemma firstn_app_sub (A : Type) (a b : list A) :
  firstn (List.length (a ++ b) - List.length b) (a ++ b) = a.
Proof.
  rewrite length_app, Nat.add_sub.
  induction a as [|x a IH]; simpl; [reflexivity|now rewrite IH].
Qed.

(** [exec] finds a match exactly when some position has one. *)
Lemma exec_inv pat : forall s c,
  exec pat s = Some c -> exists t, suffix t s /\ match_here pat t = Some c.
Proof.
  induction s as [|d s IH]; simpl; intros c H.
  - destruct (match_here pat []) eqn:E; [|discriminate].
    injection H as ->. eauto with rx.
  - destruct (match_here pat (d :: s)) eqn:E.
    + injection H as ->. eauto with rx.
    + apply IH in H as (t & Ht & H). eauto with rx.
Qed.

Lemma exec_complete pat : forall s t c,
  suffix t s -> match_here pat t = Some c -> exists c', exec pat s = Some c'.
Proof.
  intros s t c [p ->]. revert t c.
  induction p as [|d p IH]; intros t c H.
  - destruct t; simpl; rewrite H; eauto.
  - change ((d :: p) ++ t) with (d :: p ++ t). simpl.
    destruct (match_here pat (d :: p ++ t)); eauto.
Qed.

(** Positions where the pattern cannot start are passed over. *)
Lemma exec_skip pat (pre t : jsstring) :
  (forall p1 c p2, pre = p1 ++ c :: p2 ->
                   match_here pat (c :: p2 ++ t) = None) ->
  exec pat (pre ++ t) = exec pat t.
Proof.
  induction pre as [|c pre IH]; intros H; [reflexivity|].
  change ((c :: pre) ++ t) with (c :: pre ++ t).
  simpl. rewrite (H [] c pre eq_refl). apply IH.
  intros p1 d p2 ->. apply (H (c :: p1) d p2 eq_refl).
Qed.

Lemma exec_here pat s c : match_here pat s = Some c -> exec pat s = Some c.
Proof. destruct s; simpl; now intros ->. Qed.

(** The group of a pattern that opens with a class starts with a
    code unit of that class. *)
Lemma group_head pat p g s c :
  group pat = Cat (Cls p) g ->
  match_here pat s = Some c ->
  exists d c', c = d :: c' /\ p d = true.
Proof.
  unfold match_here. intros -> H.
  apply run_inv in H as (s1 & _ & H).
  apply run_cls_inv in H as (d & s1' & -> & Hd & H).
  apply run_inv in H as (s2 & H2 & H).
  apply run_inv in H as (s3 & _ & H).
  apply suffix_length in H2.
  assert (E : firstn (List.length (d :: s1') - List.length s2) (d :: s1')
              = d :: firstn (List.length s1' - List.length s2) s1').
  { simpl List.length. now rewrite Nat.sub_succ_l by assumption. }
  injection H as <-.
  exists d, (firstn (List.length s1' - List.length s2) s1').
  split; [exact E|assumption].
Qed.

(** The group [[0-9,]+] holds digits and commas, one at least. *)
Lemma digits_commas_group pat s m1 :
  group pat = digits_commas ->
  match_here pat s = Some m1 ->
  m1 <> [] /\ forallb digit_or_comma m1 = true.
Proof.
  unfold match_here, digits_commas, Plus. intros -> H.
  apply run_inv in H as (s1 & _ & H).
  apply run_cls_inv in H as (d & s1' & -> & Hd & H).
  cbn [run] in H.
  apply star_greedy_run in H as (ds & t & -> & Hds & H).
  apply run_inv in H as (s3 & _ & H).
  change (d :: ds ++ t) with ((d :: ds) ++ t) in H.
  rewrite firstn_app_sub in H. injection H as <-.
  split; [discriminate|]. simpl. now rewrite Hd, Hds.
Qed.

(** So [parseInt] is only ever given digits. *)
Lemma parseInt_argument pat s m1 :
  group pat = digits_commas ->
  exec pat s = Some m1 ->
  forallb digit (strip_commas m1) = true.
Proof.
  intros Hg H. apply exec_inv in H as (t & _ & H).
  apply (digits_commas_group _ _ Hg) in H as [_ H].
  unfold strip_commas. induction m1 as [|c m IH]; [reflexivity|].
  simpl in H. apply andb_true_iff in H as [Hc H]. simpl.
  destruct (chr "," c) eqn:E; simpl; [now apply IH|].
  unfold digit_or_comma in Hc. rewrite E, orb_false_r in Hc.
  rewrite Hc. now apply IH.
Qed.

End RegExpFacts.
Import RegExpFacts.

(** ** Scores *)

Module ScoringFacts.

Lemma profitable_spec it : profitable it = true <-> exploitable it.
Proof.
  unfold profitable, exploitable, js_gt, js_lt, js_le.
  destruct (bsr it) as [|r], (reviews it) as [|n]; simpl; split;
    try discriminate;
    try (intros (r' & n' & Hr & Hn & _); discriminate);
    rewrite ?andb_false_r; try discriminate.
  - rewrite !andb_true_iff, Z.ltb_lt, !Z.leb_le. intros [[? ?] ?].
    exists r, n. repeat split; trivial.
  - intros (r' & n' & [= <-] & [= <-] & [? ?] & ?).
    rewrite !andb_true_iff, Z.ltb_lt, !Z.leb_le. auto.
Qed.

Lemma competitive_spec it : competitive it = true <-> entrenched it.
Proof.
  unfold competitive, entrenched, js_ge, js_le.
  destruct (reviews it) as [|n]; split; try discriminate.
  - intros (n' & Hn & _); discriminate.
  - rewrite Z.leb_le. eauto.
  - intros (n' & [= <-] & ?). now rewrite Z.leb_le.
Qed.

(** The length of a filter is the exact count. *)
Lemma filter_counts (P : item -> Prop) (f : item -> bool) :
  (forall it, f it = true <-> P it) ->
  forall l, counts P l (List.length (filter f l)).
Proof.
  intros Hf. induction l as [|it l IH]; simpl; [constructor|].
  destruct (f it) eqn:E.
  - simpl. apply counts_in; [now apply Hf|assumption].
  - apply counts_out; [|assumption].
    intros HP. apply Hf in HP. congruence.
Qed.

Lemma counts_unique (P : item -> Prop) l : forall n m,
  counts P l n -> counts P l m -> n = m.
Proof.
  induction l as [|it l IH]; intros n m Hn Hm;
    inversion Hn; inversion Hm; subst; auto; contradiction.
Qed.

End ScoringFacts.
Import ScoringFacts.

(** C1. For every integer [totalResultCount] (so for every
    non-negative one) the popularity score is green with value 100
    exactly when the count is at most 1000, yellow with value 50
    exactly when it lies in 1001..3000, and red with value 0 exactly
    when it exceeds 3000; 1000 and 3000 are the last counts of the
    green and of the yellow tier. *)
Theorem calculatePopularity_tiers (totalResultCount : Z) :
  let s := calculatePopularity (Num totalResultCount) in
  (score s = green /\ value s = 100%Z <-> (totalResultCount <= 1000)%Z) /\
  (score s = yellow /\ value s = 50%Z
   <-> (1001 <= totalResultCount <= 3000)%Z) /\
  (score s = red /\ value s = 0%Z <-> (totalResultCount > 3000)%Z) /\
  calculatePopularity (Num 1000) = TierScore green 100 None /\
  calculatePopularity (Num 1001) = TierScore yellow 50 None /\
  calculatePopularity (Num 3000) = TierScore yellow 50 None /\
  calculatePopularity (Num 3001) = TierScore red 0 None.
Proof.
  unfold calculatePopularity, js_le.
  destruct (Z.leb_spec totalResultCount 1000);
    destruct (Z.leb_spec totalResultCount 3000); simpl;
    repeat split; try reflexivity; try lia;
    intros [? ?]; try discriminate; try lia.
Qed.

(** C2. For every list of items the count of the profitability
    score is the exact number of items with rank > 0, rank <= 30000
    and reviewCount <= 200; the tier is green/100 exactly when that
    count is at least 6, yellow/50 exactly when it is 3, 4 or 5, and
    red/0 exactly when it is below 3; the empty list gives count 0
    and red/0. *)
Theorem calculateProfitability_count_and_tiers (l : list item) :
  let s := calculateProfitability l in
  (exists n, count s = Some n /\ counts exploitable l n /\
     (score s = green /\ value s = 100%Z <-> 6 <= n) /\
     (score s = yellow /\ value s = 50%Z <-> 3 <= n <= 5) /\
     (score s = red /\ value s = 0%Z <-> n < 3)) /\
  calculateProfitability [] = TierScore red 0 (Some 0).
Proof.
  split; [|reflexivity].
  exists (List.length (filter profitable l)).
  pose proof (@filter_counts _ _ profitable_spec l) as Hc.
  unfold calculateProfitability.
  destruct (Nat.leb_spec 6 (List.length (filter profitable l)));
    [|destruct (Nat.leb_spec 3 (List.length (filter profitable l)))];
    simpl; repeat split; trivial; try lia;
    intros [? ?]; try discriminate; try lia.
Qed.

(** C3. For every list of items the count of the competition score
    is the exact number of items with reviewCount >= 500; the tier is
    green/100 exactly when that count is at most 3, yellow/50 exactly
    when it is 4, 5 or 6, and red/0 exactly when it is at least 7;
    the empty list gives count 0 and falls in the green tier through
    the same comparison as every other list. *)
Theorem calculateCompetition_count_and_tiers (l : list item) :
  let s := calculateCompetition l in
  (exists n, count s = Some n /\ counts entrenched l n /\
     (score s = green /\ value s = 100%Z <-> n <= 3) /\
     (score s = yellow /\ value s = 50%Z <-> 4 <= n <= 6) /\
     (score s = red /\ value s = 0%Z <-> 7 <= n)) /\
  calculateCompetition [] = TierScore green 100 (Some 0).
Proof.
  split; [|reflexivity].
  exists (List.length (filter competitive l)).
  pose proof (@filter_counts _ _ competitive_spec l) as Hc.
  unfold calculateCompetition.
  destruct (Nat.leb_spec (List.length (filter competitive l)) 3);
    [|destruct (Nat.leb_spec (List.length (filter competitive l)) 6)];
    simpl; repeat split; trivial; try lia;
    intros [? ?]; try discriminate; try lia.
Qed.

(** ** The rank *)

Module RankFacts.

Lemma bsr_loop_none patterns text d :
  (forall p, In p patterns -> exec p text = None) ->
  bsr_loop patterns text d = d.
Proof.
  induction patterns as [|p ps IH]; intros H; simpl; [reflexivity|].
  rewrite (H p (or_introl eq_refl)). apply IH.
  intros q Hq. apply H. now right.
Qed.

Lemma bsr_loop_first earlier p later text d m1 :
  (forall q, In q earlier -> exec q text = None) ->
  exec p text = Some m1 ->
  bsr_loop (earlier ++ p :: later) text d = parseInt (strip_commas m1).
Proof.
  induction earlier as [|q qs IH]; intros H Hp; simpl.
  - now rewrite Hp.
  - rewrite (H q (or_introl eq_refl)). apply IH; [|assumption].
    intros r Hr. apply H. now right.
Qed.

(** What [no_match_in] computes. *)
Lemma no_match_in_spec pat pre rest :
  no_match_in pat pre rest = true ->
  forall p1 c p2, pre = p1 ++ c :: p2 ->
                  match_here pat (c :: p2 ++ rest) = None.
Proof.
  induction pre as [|d pre IH]; intros H p1 c p2 E.
  - now destruct p1.
  - cbn [no_match_in] in H.
    destruct (match_here pat ((d :: pre) ++ rest)) eqn:M; [discriminate|].
    destruct p1 as [|e p1]; injection E as -> ->.
    + exact M.
    + now apply (IH H p1 c p2).
Qed.

(** Where the text holds no sharp sign directly followed by a digit
    or a comma, what follows a sharp sign is neither. *)
Lemma no_mark_after_sharp m1 c t :
  has_rank_mark (m1 ++ c :: t) = false -> chr "#" c = true ->
  stops digit_or_comma t = true.
Proof.
  induction m1 as [|d m1 IH]; cbn [app has_rank_mark]; intros H Hc.
  - apply orb_false_iff in H as [H _]. rewrite Hc in H.
    now apply negb_false_iff in H.
  - apply orb_false_iff in H as [_ H]. now apply IH.
Qed.

(** The first pattern on a text that opens with the words, goes on
    on the same line without a sharp sign before a digit or a comma,
    and then shows a sharp sign and a digit group. *)
Lemma bsr1_here mid ds post :
  forallb dot mid = true ->
  has_rank_mark (mid ++ units "#") = false ->
  ds <> [] -> forallb digit_or_comma ds = true ->
  stops digit_or_comma post = true ->
  match_here bsr1
    (units "Best Sellers Rank" ++ mid ++ units "#" ++ ds ++ post)
  = Some ds.
Proof.
  intros Hmid Hmark Hne Hds Hpost.
  destruct ds as [|d ds]; [contradiction|].
  simpl in Hds. apply andb_true_iff in Hds as [Hd Hds].
  unfold match_here, bsr1, before, group, after, best_sellers_rank.
  cbn -[star_lazy digits_commas List.length firstn].
  rewrite star_lazy_skip.
  2:{ intros m1 c m2 E. split; [exact (@forallb_split _ _ _ _ _ _ Hmid E)|].
      destruct (chr "#" c) eqn:Ec; [|reflexivity].
      assert (Hs : stops digit_or_comma (m2 ++ units "#") = true).
      { apply (@no_mark_after_sharp m1 c); [|exact Ec].
        rewrite E in Hmark. now rewrite <- app_assoc in Hmark. }
      unfold digits_commas, Plus. cbn [run].
      destruct m2 as [|x m2]; [reflexivity|].
      cbn [app stops] in Hs. apply negb_true_iff in Hs.
      cbn [app]. now rewrite Hs. }
  unfold digits_commas, Plus.
  cbn -[star_greedy List.length firstn]. rewrite Hd.
  erewrite star_greedy_all; [reflexivity|assumption|assumption|].
  change (d :: ds ++ post) with ((d :: ds) ++ post).
  now rewrite firstn_app_sub.
Qed.

Lemma exec_bsr1_found pre mid ds post :
  no_match_in bsr1 pre
    (units "Best Sellers Rank" ++ mid ++ units "#" ++ ds ++ post) = true ->
  forallb dot mid = true ->
  has_rank_mark (mid ++ units "#") = false ->
  ds <> [] -> forallb digit_or_comma ds = true ->
  stops digit_or_comma post = true ->
  exec bsr1
    (pre ++ units "Best Sellers Rank" ++ mid ++ units "#" ++ ds ++ post)
  = Some ds.
Proof.
  intros Hpre Hmid Hmark Hne Hds Hpost.
  rewrite exec_skip.
  - apply exec_here. now apply bsr1_here.
  - now apply no_match_in_spec.
Qed.

End RankFacts.
Import RankFacts.

(** C4, counterexample: in this text "Best Sellers Rank"
    is followed by "#500" and a bare "#999" stands before, yet the
    rank is 999.  The line break between "Rank" and "#500" stops the
    first pattern, whose dot matches no line terminator, and the
    fourth pattern takes the leftmost sharp sign. *)
Lemma extract_bsr_across_line_break :
  let text := units "#999" ++ [10%N] ++ units "Best Sellers Rank"
              ++ [10%N] ++ units "#500" in
  exec bsr1 text = None /\
  extract_bsr text = Num 999 /\
  extract_bsr text <> Num 500.
Proof. vm_compute. repeat split. discriminate. Qed.

(** C4, amended.  For every fragment text the rank is resolved by
    the four patterns in order, (1) Best Seller(s) Rank ... #digits,
    (2) #digits in Books, (3) Amazon Best Seller(s) Rank ... #digits,
    (4) a bare #digits: it is the sentinel 999999 when none matches,
    and otherwise the digit group of the first pattern that matches,
    its commas removed, whatever the later patterns would match.  In
    particular a text of the form
    pre "Best Sellers Rank" mid "#" digits post,
    where the first pattern matches at no position of pre, mid holds
    no line terminator and no sharp sign directly followed by a digit
    or a comma, and post does not go on with a digit or a comma, has
    the rank of that digit group (500 for "#500"), wherever a bare
    "#999" stands in pre or post. *)
Theorem extract_bsr_precedence (text : jsstring) :
  ((forall p, In p bsrPatterns -> exec p text = None) ->
   extract_bsr text = Num 999999) /\
  (forall earlier p later m1,
      bsrPatterns = earlier ++ p :: later ->
      (forall q, In q earlier -> exec q text = None) ->
      exec p text = Some m1 ->
      extract_bsr text = parseInt (strip_commas m1)) /\
  extract_bsr text =
    match exec bsr1 text with
    | Some m1 => parseInt (strip_commas m1)
    | None =>
        match exec bsr2 text with
        | Some m1 => parseInt (strip_commas m1)
        | None =>
            match exec bsr3 text with
            | Some m1 => parseInt (strip_commas m1)
            | None =>
                match exec bsr4 text with
                | Some m1 => parseInt (strip_commas m1)
                | None => Num 999999
                end
            end
        end
    end /\
  (forall pre mid ds post,
      text = pre ++ units "Best Sellers Rank" ++ mid
                 ++ units "#" ++ ds ++ post ->
      no_match_in bsr1 pre
        (units "Best Sellers Rank" ++ mid ++ units "#" ++ ds ++ post)
      = true ->
      forallb dot mid = true ->
      has_rank_mark (mid ++ units "#") = false ->
      ds <> [] -> forallb digit_or_comma ds = true ->
      stops digit_or_comma post = true ->
      extract_bsr text = parseInt (strip_commas ds)).
Proof.
  unfold extract_bsr, extract_bsr_with. repeat split.
  - apply bsr_loop_none.
  - intros earlier p later m1 -> H Hp. now apply bsr_loop_first.
  - intros pre mid ds post -> Hpre Hmid Hmark Hne Hds Hpost.
    apply (@bsr_loop_first [] bsr1 [bsr2; bsr3; bsr4]); [intros q []|].
    now apply exec_bsr1_found.
Qed.

Lemma extract_bsr_precedence_witness :
  extract_bsr (units "no rank on this line") = Num 999999 /\
  extract_bsr (units "Paperback #1,234 in Books") = Num 1234 /\
  extract_bsr
    (units "#999 Cookbook. Best Sellers Rank: # 1 or #500 in Books, #999")
  = Num 500.
Proof.
  split; [|split].
  - apply (proj1 (extract_bsr_precedence _)).
    intros p [<-|[<-|[<-|[<-|[]]]]]; vm_compute; reflexivity.
  - apply (proj1 (proj2 (extract_bsr_precedence _))
             [bsr1] bsr2 [bsr3; bsr4] (units "1,234")).
    + reflexivity.
    + intros q [<-|[]]. vm_compute. reflexivity.
    + vm_compute. reflexivity.
  - apply (proj2 (proj2 (proj2 (extract_bsr_precedence _)))
             (units "#999 Cookbook. ") (units ": # 1 or ") (units "500")
             (units " in Books, #999")).
    + reflexivity.
    + vm_compute. reflexivity.
    + reflexivity.
    + reflexivity.
    + discriminate.
    + reflexivity.
    + reflexivity.
Defined.

(** ** The review count *)

Module ReviewFacts.

Lemma js_eq_zero r : js_eq r (Num 0) = true <-> r = Num 0.
Proof.
  destruct r as [|z]; simpl; split; try discriminate.
  - intros H. apply Z.eqb_eq in H. now subst.
  - now intros [= ->].
Qed.

Lemma js_eq_nonzero r : r <> Num 0 -> js_eq r (Num 0) = false.
Proof.
  intros H. destruct (js_eq r (Num 0)) eqn:E; [|reflexivity].
  now apply js_eq_zero in E.
Qed.

Lemma review_step_zero pat text :
  leaves_zero pat text -> review_step pat text (Num 0) = Num 0.
Proof.
  unfold leaves_zero, review_step. now destruct (exec pat text).
Qed.

Lemma review_step_some pat text d m1 :
  exec pat text = Some m1 ->
  review_step pat text d = parseInt (strip_commas m1).
Proof. unfold review_step. now intros ->. Qed.

Lemma review_step_none pat text d :
  exec pat text = None -> review_step pat text d = d.
Proof. unfold review_step. now intros ->. Qed.

End ReviewFacts.
Import ReviewFacts.

(** C5, counterexample: the parenthesized strategy
    matches "(0 ratings)", yet the second strategy is consulted and
    its 12 is the result, because each later strategy is guarded by
    [reviews === 0] and not by whether an earlier one matched. *)
Lemma extract_reviews_zero_is_retried :
  let text := units "(0 ratings) 12 global ratings" in
  exec parenPattern text = Some (units "0") /\
  parseInt (strip_commas (units "0")) = Num 0 /\
  extract_reviews text = Num 12.
Proof. vm_compute. repeat split. Qed.

(** C5, amended.  For every fragment text the review count is
    resolved by three ordered strategies, (1) parenthesized
    (digits ratings|reviews), (2) digits global ratings|reviews,
    (3) bare digits ratings|reviews, commas removed before parsing.
    A strategy that matches a digit group reading other than 0 gives
    the result and no later strategy is consulted; a later strategy
    is consulted exactly when the count is still 0, that is when each
    earlier strategy either did not match or matched a group that
    reads as 0; the result is 0 when none matches.  "(1,234 ratings)"
    yields 1234 and "5,000 global ratings" yields 5000. *)
Theorem extract_reviews_order (text : jsstring) :
  (exec parenPattern text = None -> exec globalPattern text = None ->
   exec reviewPattern text = None -> extract_reviews text = Num 0) /\
  (forall m1, exec parenPattern text = Some m1 ->
      parseInt (strip_commas m1) <> Num 0 ->
      forall p2 p3, extract_reviews_with parenPattern p2 p3 text
                    = parseInt (strip_commas m1)) /\
  (forall m2, leaves_zero parenPattern text ->
      exec globalPattern text = Some m2 ->
      parseInt (strip_commas m2) <> Num 0 ->
      forall p3, extract_reviews_with parenPattern globalPattern p3 text
                 = parseInt (strip_commas m2)) /\
  (forall m3, leaves_zero parenPattern text ->
      leaves_zero globalPattern text ->
      exec reviewPattern text = Some m3 ->
      extract_reviews text = parseInt (strip_commas m3)) /\
  extract_reviews (units "(1,234 ratings)") = Num 1234 /\
  exec parenPattern (units "5,000 global ratings") = None /\
  extract_reviews (units "5,000 global ratings") = Num 5000.
Proof.
  unfold extract_reviews, extract_reviews_with. cbv zeta.
  split; [|split; [|split; [|split]]].
  - intros H1 H2 H3.
    rewrite (@review_step_none _ _ _ H1). simpl.
    rewrite (@review_step_none _ _ _ H2). simpl.
    now rewrite (@review_step_none _ _ _ H3).
  - intros m1 H1 Hnz p2 p3.
    rewrite (@review_step_some _ _ _ _ H1).
    now rewrite !(@js_eq_nonzero _ Hnz).
  - intros m2 Hz H2 Hnz p3.
    rewrite (@review_step_zero _ _ Hz). simpl.
    rewrite (@review_step_some _ _ _ _ H2).
    now rewrite (@js_eq_nonzero _ Hnz).
  - intros m3 Hz1 Hz2 H3.
    rewrite (@review_step_zero _ _ Hz1). simpl.
    rewrite (@review_step_zero _ _ Hz2). simpl.
    now rewrite (@review_step_some _ _ _ _ H3).
  - vm_compute. repeat split.
Qed.

Lemma extract_reviews_order_witness :
  extract_reviews (units "Paperback, not rated yet") = Num 0 /\
  extract_reviews_with parenPattern reviewPattern globalPattern
    (units "(1,234 ratings) 7 global ratings") = Num 1234 /\
  extract_reviews_with parenPattern globalPattern parenPattern
    (units "(0 reviews) 5,000 global ratings") = Num 5000 /\
  extract_reviews (units "4.5 out of 5 stars 321 reviews") = Num 321.
Proof.
  split; [|split; [|split]].
  - apply (proj1 (extract_reviews_order _)); vm_compute; reflexivity.
  - apply (proj1 (proj2 (extract_reviews_order _)) (units "1,234"));
      vm_compute; [reflexivity|discriminate].
  - apply (proj1 (proj2 (proj2 (extract_reviews_order _))) (units "5,000"));
      vm_compute; [reflexivity|reflexivity|discriminate].
  - apply (proj1 (proj2 (proj2 (proj2 (extract_reviews_order _))))
             (units "321"));
      vm_compute; reflexivity || exact I.
Defined.

(** ** The title *)

Module TitleFacts.

(** [a || b] of two selections is always [a]. *)
Lemma or_else_left a b : or_else a b = a.
Proof. reflexivity. Qed.

(** The title is read from the first 'h2 a span' node and from
    nowhere else. *)
Lemma extract_title_first_span f :
  extract_title f =
  match h2_a_span f with
  | [] => []
  | node :: _ => trim node
  end.
Proof.
  unfold extract_title. rewrite !or_else_left.
  destruct (h2_a_span f) as [|node rest]; [reflexivity|].
  unfold first, text_of. simpl. now rewrite app_nil_r.
Qed.

End TitleFacts.
Import TitleFacts.

(** C6, on the code: when no node matches 'h2 a span' the second
    and third strategies are not tried.  The three selections are
    joined by [||], and a selection, even an empty one, is an object
    and so truthy: the title stays empty and the listing is dropped,
    whatever the 'h2 .a-text-normal' node holds.  For the heading
    without a link, whose second node reads "Cooking Basics" once
    trimmed, no item is produced. *)
Theorem extract_title_never_falls_back :
  (forall t normal link d p r,
      extract_title (Fragment t [] normal link d p r) = [] /\
      extract_item (Fragment t [] normal link d p r) = None) /\
  trim (text_of (first (h2_a_text_normal heading_without_link)))
  = units "Cooking Basics" /\
  extract_title heading_without_link = [] /\
  scrape_items [heading_without_link] = [].
Proof.
  split; [|vm_compute; repeat split].
  intros t normal link d p r. split; reflexivity.
Qed.

(** ** The list of items *)

Module ItemFacts.

Lemma drop_ws_stops s : stops white_space (drop_ws s) = true.
Proof.
  induction s as [|c s IH]; simpl; [reflexivity|].
  destruct (white_space c) eqn:E; [assumption|]. simpl. now rewrite E.
Qed.

Lemma drop_ws_fixed s : stops white_space s = true -> drop_ws s = s.
Proof.
  destruct s as [|c s]; simpl; [reflexivity|].
  intros H. apply negb_true_iff in H. now rewrite H.
Qed.

Lemma drop_ws_last l c :
  white_space c = false -> exists m, drop_ws (l ++ [c]) = m ++ [c].
Proof.
  intros Hc. induction l as [|d l [m IH]]; simpl.
  - rewrite Hc. now exists [].
  - destruct (white_space d); [now exists m|now exists (d :: l)].
Qed.

(** Trimming leaves no white space at either end. *)
Lemma trim_stops s : stops white_space (trim s) = true.
Proof.
  unfold trim. pose proof (drop_ws_stops s) as H.
  destruct (drop_ws s) as [|c a]; [reflexivity|].
  simpl in H. apply negb_true_iff in H.
  simpl rev. destruct (@drop_ws_last (rev a) c H) as [m ->].
  rewrite rev_app_distr. simpl. now rewrite H.
Qed.

Lemma trim_idempotent s : trim (trim s) = trim s.
Proof.
  unfold trim at 1. rewrite (@drop_ws_fixed _ (trim_stops s)).
  unfold trim. rewrite rev_involutive.
  rewrite (@drop_ws_fixed _ (drop_ws_stops _)). reflexivity.
Qed.

Lemma extract_title_trimmed f : trim (extract_title f) = extract_title f.
Proof.
  unfold extract_title.
  destruct (0 <? List.length _); [apply trim_idempotent|reflexivity].
Qed.

(** The listing is dropped exactly when its title is shorter than
    5 code units. *)
Lemma extract_item_none f :
  extract_item f = None <-> List.length (extract_title f) < 5.
Proof.
  unfold extract_item.
  destruct (extract_title f) as [|c t] eqn:E; simpl; [split; [lia|easy]|].
  destruct (Nat.ltb_spec (S (List.length t)) 5); split;
    try easy; try lia.
Qed.

Lemma extract_item_some f it :
  extract_item f = Some it ->
  title it = extract_title f /\ 5 <= List.length (title it).
Proof.
  intros H. assert (Hn : ~ List.length (extract_title f) < 5).
  { intros Hlt. apply extract_item_none in Hlt. congruence. }
  unfold extract_item in H.
  destruct (_ || _); [discriminate|]. injection H as <-. simpl.
  split; [reflexivity|lia].
Qed.

Lemma nth_error_skipn (A : Type) (l : list A) : forall a,
  a < List.length l ->
  exists x, nth_error l a = Some x /\ skipn a l = x :: skipn (S a) l.
Proof.
  induction l as [|y l IH]; intros a Ha; simpl in Ha; [lia|].
  destruct a as [|a]; [now exists y|].
  destruct (IH a) as (x & Hx & Hs); [lia|].
  exists x. split; [exact Hx|exact Hs].
Qed.

(** The loop from index [a] on, for [n] turns. *)
Lemma loop_range els : forall n a acc,
  a + n <= List.length els ->
  fold_left (loop_body els) (List.seq a n) acc
  = acc ++ flat_map kept (firstn n (skipn a els)).
Proof.
  induction n as [|n IH]; intros a acc H; simpl.
  - now rewrite app_nil_r.
  - destruct (@nth_error_skipn _ els a) as (x & Hx & Hs); [lia|].
    rewrite IH by lia. rewrite Hs. simpl.
    unfold loop_body, kept. rewrite Hx.
    destruct (extract_item x); [now rewrite <- app_assoc|reflexivity].
Qed.

(** The items are what the first 20 elements add, in page order. *)
Lemma scrape_items_flat_map els :
  scrape_items els = flat_map kept (firstn 20 els).
Proof.
  unfold scrape_items. rewrite loop_range by lia.
  change (skipn 0 els) with els. cbn [app].
  destruct (Nat.le_ge_cases (List.length els) 20) as [H|H].
  - rewrite Nat.min_l by assumption.
    now rewrite !firstn_all2 by lia.
  - now rewrite Nat.min_r by assumption.
Qed.

Lemma drop_ws_split s :
  exists l, s = l ++ drop_ws s /\ forallb white_space l = true.
Proof.
  induction s as [|c s (l & E & Hl)]; [now exists []|].
  cbn [drop_ws]. destruct (white_space c) eqn:Ec.
  - exists (c :: l). cbn [app forallb]. rewrite Ec, Hl. now rewrite <- E.
  - now exists [].
Qed.

(** Trimming removes white space in front and behind, and nothing
    else. *)
Lemma trim_split s :
  exists l r, s = l ++ trim s ++ r
              /\ forallb white_space l = true
              /\ forallb white_space r = true.
Proof.
  destruct (drop_ws_split s) as (l & El & Hl).
  destruct (drop_ws_split (rev (drop_ws s))) as (r & Er & Hr).
  exists l, (rev r). split; [|split; [assumption|]].
  - unfold trim. rewrite <- rev_app_distr, <- Er, rev_involutive.
    exact El.
  - rewrite forallb_forall in *. intros x Hx. apply Hr.
    now apply in_rev.
Qed.

Lemma trim_stops_end s : stops white_space (rev (trim s)) = true.
Proof. unfold trim. rewrite rev_involutive. apply drop_ws_stops. Qed.

(** The title is the trimmed text of the element that line 115
    selects. *)
Lemma extract_title_raw f :
  extract_title f = trim (text_of (first (h2_a_span f))).
Proof.
  unfold extract_title. rewrite !or_else_left.
  now destruct (h2_a_span f).
Qed.

End ItemFacts.
Import ItemFacts.

(** C7. For every page, every item of the returned list has a
    title that is trimmed, with no white space at either end, and
    at least 5 code units long: it is the text of the heading node
    of one of the first 20 elements with the white space in front
    and behind removed.  An element adds an item exactly when that
    trimmed text has at least 5 code units, and the list holds what
    the first 20 elements add, in page order and nothing else.  An
    element whose heading text trims to fewer than 5 code units (or
    to nothing) adds no entry: the list is the one the page gives
    without that element. *)
Theorem scrape_items_titles (els : list fragment) :
  Forall (fun it =>
            5 <= List.length (title it)
            /\ trim (title it) = title it
            /\ stops white_space (title it) = true
            /\ stops white_space (rev (title it)) = true
            /\ exists f, In f (firstn 20 els)
                         /\ title it = trim (text_of (first (h2_a_span f))))
         (scrape_items els) /\
  scrape_items els = flat_map kept (firstn 20 els) /\
  (forall f, kept f = [] <-> List.length (extract_title f) < 5) /\
  (forall f it, kept f = [it] -> title it = extract_title f) /\
  (forall f, extract_title f = trim (text_of (first (h2_a_span f)))) /\
  (forall s, exists l r,
      s = l ++ trim s ++ r
      /\ forallb white_space l = true /\ forallb white_space r = true
      /\ stops white_space (trim s) = true
      /\ stops white_space (rev (trim s)) = true) /\
  (forall before f after,
      els = before ++ f :: after ->
      List.length els <= 20 ->
      List.length (trim (text_of (first (h2_a_span f)))) < 5 ->
      scrape_items els = scrape_items (before ++ after)
      /\ List.length (scrape_items els) < List.length els).
Proof.
  assert (L : forall l, List.length (flat_map kept l) <= List.length l).
  { induction l as [|x l IH]; simpl; [lia|].
    rewrite length_app. unfold kept at 1.
    destruct (extract_item x); simpl; lia. }
  split; [|split; [|split; [|split; [|split; [|split]]]]].
  - rewrite scrape_items_flat_map. apply Forall_forall.
    intros it Hin. apply in_flat_map in Hin as (f & Hf & Hin).
    unfold kept in Hin. destruct (extract_item f) as [it'|] eqn:E; [|easy].
    destruct Hin as [<-|[]].
    apply extract_item_some in E as [Ht Hl].
    split; [assumption|]. rewrite Ht.
    split; [apply extract_title_trimmed|].
    rewrite extract_title_raw.
    split; [apply trim_stops|]. split; [apply trim_stops_end|].
    now exists f.
  - apply scrape_items_flat_map.
  - intros f. split; intros H.
    + apply extract_item_none. unfold kept in H.
      now destruct (extract_item f).
    + apply extract_item_none in H. unfold kept. now rewrite H.
  - intros f it H. unfold kept in H.
    destruct (extract_item f) as [it'|] eqn:E; [|easy].
    injection H as <-. now apply extract_item_some in E.
  - apply extract_title_raw.
  - intros s. destruct (trim_split s) as (l & r & E & Hl & Hr).
    exists l, r. split; [exact E|]. split; [exact Hl|]. split; [exact Hr|].
    split; [apply trim_stops|apply trim_stops_end].
  - intros before f after -> Hlen Hshort.
    rewrite <- extract_title_raw in Hshort.
    apply extract_item_none in Hshort.
    assert (K : kept f = []) by (unfold kept; now rewrite Hshort).
    rewrite length_app in Hlen. cbn [List.length] in Hlen.
    rewrite !scrape_items_flat_map.
    rewrite !firstn_all2 by (rewrite ?length_app; cbn [List.length]; lia).
    rewrite !flat_map_app. cbn [flat_map]. rewrite K. cbn [app].
    split; [reflexivity|].
    rewrite !length_app. cbn [List.length].
    pose proof (L before). pose proof (L after). lia.
Qed.

Lemma scrape_items_titles_witness :
  let els := [titled "Cooking Basics"; titled "   ab   ";
              titled "Baking at Home"] in
  scrape_items els
  = scrape_items [titled "Cooking Basics"; titled "Baking at Home"]
  /\ List.length (scrape_items els) < List.length els.
Proof.
  apply (proj2 (proj2 (proj2 (proj2 (proj2 (proj2 (scrape_items_titles _))))))
           [titled "Cooking Basics"] (titled "   ab   ")
           [titled "Baking at Home"]).
  - reflexivity.
  - simpl. lia.
  - vm_compute. lia.
Defined.

(** ** The rating *)

Module RatingFacts.

Lemma digit_val_nonneg c : digit c = true -> (0 <= digit_val c)%Z.
Proof.
  unfold digit, digit_val. intros H.
  apply andb_true_iff in H as [H _]. apply N.leb_le in H. lia.
Qed.

Lemma read_digits_nonneg s : forall acc n v m rest,
  read_digits s acc n = (v, m, rest) ->
  (0 <= acc)%Z -> (0 <= v)%Z /\ n <= m.
Proof.
  induction s as [|c s IH]; cbn [read_digits]; intros acc n v m rest H Hacc.
  - injection H as <- <- _. split; [assumption|lia].
  - destruct (digit c) eqn:E.
    + apply IH in H.
      * destruct H. split; [assumption|lia].
      * pose proof (digit_val_nonneg c E). lia.
    + injection H as <- <- _. split; [assumption|lia].
Qed.

(** A numeral that opens with a digit reads as a number that is
    not negative. *)
Lemma parseFloat_digit d s :
  digit d = true -> exists q, parseFloat (d :: s) = FNum q /\ (0 <= q)%Q.
Proof.
  intros Hd. unfold parseFloat. cbn [read_digits]. rewrite Hd.
  destruct (read_digits s (10 * 0 + digit_val d) 1) as [[v n] rest] eqn:E.
  apply read_digits_nonneg in E as [Hv Hn];
    [|pose proof (digit_val_nonneg d Hd); lia].
  destruct n as [|n]; [lia|].
  assert (Hi : (0 <= inject_Z v)%Q) by (unfold Qle; simpl; lia).
  destruct rest as [|c rest]; [eauto|].
  destruct (chr "." c); [|eauto].
  destruct (read_digits rest 0 0) as [[f k] rest'] eqn:F.
  apply read_digits_nonneg in F as [Hf _]; [|lia].
  eexists. split; [reflexivity|].
  unfold Qle, Qplus. simpl. nia.
Qed.

(** The group of the rating pattern opens with a digit. *)
Lemma rating_group_head text m1 :
  exec ratingPattern text = Some m1 ->
  exists d m', m1 = d :: m' /\ digit d = true.
Proof.
  intros H. apply exec_inv in H as (t & _ & H).
  apply (@group_head
           (Pattern Eps
              (Cat (Cls digit)
                 (Cat (Star true digit)
                    (Cat (Opt (Cls (chr "."))) (Star true digit))))
              (after ratingPattern))
           digit _ t m1 eq_refl).
  exact H.
Qed.

End RatingFacts.
Import RatingFacts.

(** C8, counterexample: the label "9.9 out of 10" gives
    an item whose rating is 9.9, above 5.  The pattern reads the
    numeral before "out of" and nothing bounds it. *)
Lemma rating_above_five :
  option_map rating (extract_item ten_point_label) = Some (FNum (99 # 10))
  /\ (5 < 99 # 10)%Q.
Proof. split; [vm_compute; reflexivity|reflexivity]. Qed.

(** C8, amended.  For every listing fragment the rating of the
    extracted item is a number that is not negative: it is the
    sentinel 0 when no node carries a label or the label holds no
    "numeral out of", and otherwise the numeral read before "out of",
    whatever its size (4.5 for "4.5 out of 5 stars"); no upper bound
    of 5 applies to it. *)
Theorem extract_rating_nonnegative (f : fragment) :
  (exists q, extract_rating f = FNum q /\ (0 <= q)%Q) /\
  (forall it, extract_item f = Some it -> rating it = extract_rating f) /\
  (a_icon_alt f = [] \/ exec ratingPattern (text_of (a_icon_alt f)) = None ->
   extract_rating f = FNum 0) /\
  (forall m1, a_icon_alt f <> [] ->
      exec ratingPattern (text_of (a_icon_alt f)) = Some m1 ->
      extract_rating f = parseFloat m1) /\
  parseFloat (units "4.5") = FNum (45 # 10).
Proof.
  split; [|split; [|split; [|split]]].
  - unfold extract_rating.
    destruct (0 <? List.length (a_icon_alt f));
      [|exists 0%Q; split; [reflexivity|apply Qle_refl]].
    destruct (exec ratingPattern (text_of (a_icon_alt f))) as [m1|] eqn:E;
      [|exists 0%Q; split; [reflexivity|apply Qle_refl]].
    apply rating_group_head in E as (d & m' & -> & Hd).
    now apply parseFloat_digit.
  - intros it H. unfold extract_item in H.
    destruct (_ || _); [discriminate|]. now injection H as <-.
  - unfold extract_rating. intros [->| ->]; [reflexivity|].
    now destruct (0 <? _).
  - intros m1 Hne H. unfold extract_rating. rewrite H.
    destruct (a_icon_alt f); [contradiction|reflexivity].
  - vm_compute. reflexivity.
Qed.

Lemma extract_rating_nonnegative_witness :
  (forall it, extract_item (titled "Cooking Basics") = Some it ->
              rating it = FNum 0) /\
  extract_rating (titled "Cooking Basics") = FNum 0 /\
  extract_rating ten_point_label = FNum (99 # 10).
Proof.
  split; [|split].
  - intros it H.
    apply (proj1 (proj2 (extract_rating_nonnegative _)) it H).
  - apply (proj1 (proj2 (proj2 (extract_rating_nonnegative _)))).
    left. reflexivity.
  - apply (proj1 (proj2 (proj2 (proj2 (extract_rating_nonnegative _))))
             (units "9.9")).
    + discriminate.
    + vm_compute. reflexivity.
Defined.

(** ** The request *)

(** C9. The analyze operation answers with the client error
    (status 400, "Keyword is required") exactly when the keyword is
    missing or the empty string; then nothing is done to the browser
    and the answer carries no data, so no item list.  For every
    other keyword the answer is not the client error and the browser
    is launched. *)
Theorem analyze_validation (browser : query_value -> outcome)
        (keyword : query_value) :
  ((exists e, fst (analyze browser keyword) = BadRequest e)
   <-> keyword = QUndefined \/ keyword = QString []) /\
  (keyword = QUndefined \/ keyword = QString [] ->
   analyze browser keyword = (BadRequest (units "Keyword is required"), [])) /\
  (keyword <> QUndefined -> keyword <> QString [] ->
   (forall e, fst (analyze browser keyword) <> BadRequest e)
   /\ exists rest, snd (analyze browser keyword) = Launch :: rest).
Proof.
  unfold analyze, scrapeAmazonData.
  destruct keyword as [|[|c s]|]; simpl.
  - split; [|split].
    + split; [now left|eauto].
    + reflexivity.
    + now intros H.
  - split; [|split].
    + split; [now right|eauto].
    + reflexivity.
    + now intros _ H.
  - split; [|split].
    + split; [|now intros [H|H]].
      intros [e H].
      now destruct (browser (QString (c :: s)))
        as [m|m [m'|]|m [m'|]|m [m'|]|p [m'|]].
    + now intros [H|H].
    + intros _ _.
      destruct (browser (QString (c :: s)))
        as [m|m [m'|]|m [m'|]|m [m'|]|p [m'|]]; simpl;
        (split; [discriminate|eauto]).
  - split; [|split].
    + split; [|now intros [H|H]].
      intros [e H].
      now destruct (browser QObject)
        as [m|m [m'|]|m [m'|]|m [m'|]|p [m'|]].
    + now intros [H|H].
    + intros _ _.
      destruct (browser QObject)
        as [m|m [m'|]|m [m'|]|m [m'|]|p [m'|]]; simpl;
        (split; [discriminate|eauto]).
Qed.

Lemma analyze_validation_witness :
  analyze never_renders (QString [])
  = (BadRequest (units "Keyword is required"), []) /\
  (forall e, fst (analyze never_renders (QString (units "cooking")))
             <> BadRequest e).
Proof.
  split.
  - apply (proj1 (proj2 (analyze_validation never_renders (QString [])))).
    right. reflexivity.
  - apply (proj2 (proj2 (analyze_validation never_renders
                           (QString (units "cooking")))));
      discriminate.
Defined.

(** ** The third rank pattern *)

Module ThirdPatternFacts.

(** Where the third pattern matches, the first matches a little
    further, after "Amazon" and the white space, with the same
    group. *)
Lemma bsr3_holds_bsr1 s m3 :
  match_here bsr3 s = Some m3 ->
  exists t, suffix t s /\ match_here bsr1 t = Some m3.
Proof.
  unfold match_here, bsr3. cbn [before group after cats run].
  intros H.
  apply run_inv in H as (t1 & H1 & H).
  apply star_greedy_inv in H as (t2 & H2 & H).
  exists t2. split; [now apply (suffix_trans H2)|exact H].
Qed.

Lemma exec_bsr3_some text m3 :
  exec bsr3 text = Some m3 ->
  exists t, suffix t text /\ match_here bsr1 t = Some m3.
Proof.
  intros H. apply exec_inv in H as (t & Ht & H).
  apply bsr3_holds_bsr1 in H as (u & Hu & H).
  exists u. split; [now apply (suffix_trans Hu)|exact H].
Qed.

End ThirdPatternFacts.
Import ThirdPatternFacts.

(** C10, counterexample: on this text the third pattern
    matches with the group "2" while the first pattern, which starts
    at the earlier "Best Seller Rank", matches with the group "1". *)
Lemma third_pattern_other_group :
  let text := units "Best Seller Rank #1 Amazon Best Sellers Rank #2" in
  exec bsr3 text = Some (units "2") /\
  exec bsr1 text = Some (units "1") /\
  exec bsr1 text <> exec bsr3 text.
Proof. vm_compute. repeat split. discriminate. Qed.

(** C10, amended.  The third rank pattern is unreachable: every
    fragment text it matches is matched by the first pattern too (at
    the place where the third one reads "Best Seller(s) Rank" the
    first one matches with the same digit group, though the match
    that the first pattern reports is its leftmost one and may hold
    another group), so removing the third pattern from the list
    yields a rank extractor equal to the original on every text. *)
Theorem third_pattern_unreachable (text : jsstring) :
  (forall m3, exec bsr3 text = Some m3 ->
      (exists m1, exec bsr1 text = Some m1) /\
      (exists t, suffix t text /\ match_here bsr1 t = Some m3)) /\
  extract_bsr_with [bsr1; bsr2; bsr4] text = extract_bsr text.
Proof.
  assert (A : forall m3, exec bsr3 text = Some m3 ->
                         exists m1, exec bsr1 text = Some m1).
  { intros m3 H. apply exec_bsr3_some in H as (t & Ht & H).
    apply (exec_complete _ Ht H). }
  split.
  - intros m3 H. split; [now apply (A m3)|now apply exec_bsr3_some].
  - unfold extract_bsr, extract_bsr_with, bsrPatterns. cbn [bsr_loop].
    destruct (exec bsr1 text) as [m1|] eqn:E1; [reflexivity|].
    destruct (exec bsr2 text) as [m2|]; [reflexivity|].
    destruct (exec bsr3 text) as [m3|]; [|reflexivity].
    destruct (A m3 eq_refl) as [m1 H]. discriminate.
Qed.

Lemma third_pattern_unreachable_witness :
  let text := units "Amazon Best Sellers Rank: #77 in Books" in
  ((exists m1, exec bsr1 text = Some m1) /\
   (exists t, suffix t text /\ match_here bsr1 t = Some (units "77"))) /\
  extract_bsr_with [bsr1; bsr2; bsr4] text = extract_bsr text.
Proof.
  split.
  - apply (proj1 (third_pattern_unreachable _) (units "77")).
    vm_compute. reflexivity.
  - apply (proj2 (third_pattern_unreachable _)).
Defined.

(** * Further properties *)

(** ** The averages *)

Module AverageFacts.

Lemma fold_js_add zs : forall a,
  fold_left js_add (map Num zs) (Num a) = Num (a + total zs).
Proof.
  induction zs as [|z zs IH]; intros a; simpl.
  - f_equal. lia.
  - rewrite IH. f_equal. lia.
Qed.

(** What the filter and the map of an average keep. *)
Lemma valid_values (key : item -> jsnum) bound l :
  map key (filter (fun item => js_gt (key item) (Num 0)
                               && js_lt (key item) (Num bound)) l)
  = map Num (values_of key bound l).
Proof.
  induction l as [|it l IH]; [reflexivity|].
  unfold values_of in *. cbn [filter flat_map].
  destruct (key it) as [|z] eqn:E; [exact IH|].
  change (js_lt (Num z) (Num bound)) with (z <? bound)%Z.
  change (js_gt (Num z) (Num 0)) with (0 <? z)%Z.
  destruct ((0 <? z)%Z && (z <? bound)%Z); [|exact IH].
  cbn [map app]. now rewrite E, IH.
Qed.

Lemma values_of_range key bound l z :
  In z (values_of key bound l) ->
  (0 < z < bound)%Z /\ exists it, In it l /\ key it = Num z.
Proof.
  unfold values_of. intros H. apply in_flat_map in H as (it & Hit & H).
  destruct (key it) as [|y] eqn:E; [easy|].
  destruct ((0 <? y)%Z && (y <? bound)%Z) eqn:B; [|easy].
  destruct H as [<-|[]].
  apply andb_true_iff in B as [B1 B2].
  apply Z.ltb_lt in B1. apply Z.ltb_lt in B2. eauto.
Qed.

Lemma values_of_in key bound l it z :
  In it l -> key it = Num z -> (0 < z < bound)%Z ->
  In z (values_of key bound l).
Proof.
  intros Hit E [H1 H2]. unfold values_of. apply in_flat_map.
  exists it. split; [assumption|]. rewrite E.
  apply Z.ltb_lt in H1. apply Z.ltb_lt in H2. rewrite H1, H2. now left.
Qed.

Lemma total_bounds lo hi zs :
  (forall z, In z zs -> (lo <= z <= hi)%Z) ->
  (Z.of_nat (List.length zs) * lo <= total zs
   <= Z.of_nat (List.length zs) * hi)%Z.
Proof.
  induction zs as [|z zs IH]; intros H; [simpl; lia|].
  assert (Hz := H z (or_introl eq_refl)).
  assert (IH' := IH (fun y Hy => H y (or_intror Hy))).
  change (total (z :: zs)) with (z + total zs)%Z.
  change (List.length (z :: zs)) with (S (List.length zs)).
  rewrite Nat2Z.inj_succ. lia.
Qed.

(** The rounded mean of integers between [lo] and [hi] lies between
    them. *)
Lemma mean_bounds lo hi zs :
  zs <> [] ->
  (forall z, In z zs -> (lo <= z <= hi)%Z) ->
  let n := Z.of_nat (List.length zs) in
  (lo <= (2 * total zs + n) / (2 * n) <= hi)%Z.
Proof.
  intros Hne H n. pose proof (@total_bounds lo hi zs H) as [H1 H2].
  fold n in H1, H2.
  assert (Hn : (0 < n)%Z) by (destruct zs; [easy|subst n; simpl; lia]).
  split.
  - apply Z.div_le_lower_bound; lia.
  - apply Z.lt_succ_r. apply Z.div_lt_upper_bound; lia.
Qed.

(** An average, in terms of the integers it takes in. *)
Lemma average_eq (key : item -> jsnum) bound l :
  (let valid := map key (filter (fun item => js_gt (key item) (Num 0)
                               && js_lt (key item) (Num bound)) l) in
   if 0 <? List.length valid
   then round_div (sum_of valid) (List.length valid)
   else Num 0)
  = mean_of (values_of key bound l).
Proof.
  cbv zeta. rewrite valid_values. unfold sum_of.
  rewrite fold_js_add, length_map.
  destruct (values_of key bound l) as [|z zs]; reflexivity.
Qed.

Lemma avgBSR_eq l :
  avgBSR l = mean_of (values_of bsr 999999 l).
Proof. apply (average_eq bsr 999999 l). Qed.

Lemma avgReviews_eq l :
  avgReviews l = mean_of (values_of reviews 1000000 l).
Proof. apply (average_eq reviews 1000000 l). Qed.

Lemma average_range key bound l avg :
  avg = mean_of (values_of key bound l) ->
  exists a, avg = Num a /\
    ((forall it, In it l -> ~ plausible bound (key it)) -> a = 0%Z) /\
    (forall lo hi,
        (exists it, In it l /\ plausible bound (key it)) ->
        (forall it z, In it l -> key it = Num z -> (0 < z < bound)%Z ->
                      (lo <= z <= hi)%Z) ->
        (lo <= a <= hi)%Z).
Proof.
  intros ->. unfold mean_of.
  destruct (values_of key bound l) as [|z zs] eqn:E.
  - exists 0%Z. split; [reflexivity|]. split; [reflexivity|].
    intros lo hi (it & Hit & y & Hy & Hr) _.
    pose proof (@values_of_in key bound l it y Hit Hy Hr) as Hin.
    rewrite E in Hin. destruct Hin.
  - eexists. split; [reflexivity|]. split.
    + intros Hno. exfalso.
      destruct (@values_of_range key bound l z) as (Hr & it & Hit & Hk);
        [rewrite E; now left|].
      apply (Hno it Hit). now exists z.
    + intros lo hi _ H. apply mean_bounds; [discriminate|].
      intros y Hy. rewrite <- E in Hy.
      destruct (@values_of_range key bound l y Hy) as (Hr & it & Hit & Hk).
      now apply (H it).
Qed.

Lemma values_of_skip key bound l1 it l2 :
  ~ plausible bound (key it) ->
  values_of key bound (l1 ++ it :: l2) = values_of key bound (l1 ++ l2).
Proof.
  intros H. unfold values_of. rewrite !flat_map_app. f_equal.
  cbn [flat_map]. destruct (key it) as [|z] eqn:E; [reflexivity|].
  destruct ((0 <? z)%Z && (z <? bound)%Z) eqn:B; [|reflexivity].
  exfalso. apply H. exists z. apply andb_true_iff in B as [B1 B2].
  apply Z.ltb_lt in B1. apply Z.ltb_lt in B2. now split.
Qed.

Lemma total_permutation zs zs' : Permutation zs zs' -> total zs = total zs'.
Proof.
  induction 1; simpl; lia.
Qed.

Lemma mean_permutation zs zs' :
  Permutation zs zs' -> mean_of zs = mean_of zs'.
Proof.
  intros H. unfold mean_of.
  rewrite (total_permutation H), (Permutation_length H).
  destruct zs as [|z zs].
  - apply Permutation_nil in H. now subst.
  - destruct zs' as [|z' zs']; [|reflexivity].
    apply Permutation_sym, Permutation_nil in H. discriminate.
Qed.

Lemma values_of_permutation key bound l l' :
  Permutation l l' ->
  Permutation (values_of key bound l) (values_of key bound l').
Proof. apply Permutation_flat_map. Qed.

Lemma filter_length_permutation (f : item -> bool) l l' :
  Permutation l l' ->
  List.length (filter f l) = List.length (filter f l').
Proof.
  induction 1; simpl; try congruence.
  - destruct (f x); simpl; congruence.
  - destruct (f x), (f y); reflexivity.
Qed.

End AverageFacts.
Import AverageFacts.

(** X1. The average rank and the average review count of a list of
    items are never [NaN]: each is 0 when no item has a plausible
    value (a rank strictly between 0 and 999999, a review count
    strictly between 0 and 1000000), and otherwise lies between the
    least and the greatest plausible value of the list. *)
Theorem averages_between_plausible_values (l : list item) :
  (exists a, avgBSR l = Num a /\
     ((forall it, In it l -> ~ plausible 999999 (bsr it)) -> a = 0%Z) /\
     (forall lo hi,
         (exists it, In it l /\ plausible 999999 (bsr it)) ->
         (forall it z, In it l -> bsr it = Num z -> (0 < z < 999999)%Z ->
                       (lo <= z <= hi)%Z) ->
         (lo <= a <= hi)%Z)) /\
  (exists a, avgReviews l = Num a /\
     ((forall it, In it l -> ~ plausible 1000000 (reviews it)) -> a = 0%Z) /\
     (forall lo hi,
         (exists it, In it l /\ plausible 1000000 (reviews it)) ->
         (forall it z, In it l -> reviews it = Num z -> (0 < z < 1000000)%Z ->
                       (lo <= z <= hi)%Z) ->
         (lo <= a <= hi)%Z)).
Proof.
  split.
  - apply (@average_range bsr 999999 l _ (avgBSR_eq l)).
  - apply (@average_range reviews 1000000 l _ (avgReviews_eq l)).
Qed.

Lemma averages_between_plausible_values_witness :
  let l := [listing (Num 200) (Num 150); listing (Num 50000) (Num 1000);
            listing (Num 999999) (Num 0)] in
  (exists a, avgBSR l = Num a /\ (200 <= a <= 50000)%Z) /\
  (exists a, avgReviews [listing NaN (Num 0)] = Num a /\ a = 0%Z).
Proof.
  split.
  - destruct (proj1 (averages_between_plausible_values
                       [listing (Num 200) (Num 150);
                        listing (Num 50000) (Num 1000);
                        listing (Num 999999) (Num 0)]))
      as (a & Ha & _ & Hb).
    exists a. split; [exact Ha|]. apply Hb.
    + exists (listing (Num 200) (Num 150)). split; [now left|].
      exists 200%Z. split; [reflexivity|lia].
    + intros it z [<-|[<-|[<-|[]]]] Hz Hr; simpl in Hz;
        injection Hz as <-; lia.
  - destruct (proj2 (averages_between_plausible_values
                       [listing NaN (Num 0)]))
      as (a & Ha & Hz & _).
    exists a. split; [exact Ha|]. apply Hz.
    intros it [<-|[]] (z & Hz' & Hr). simpl in Hz'.
    injection Hz' as <-. lia.
Defined.

(** X2. An item whose rank is not plausible (the sentinel 999999,
    0 or [NaN]) does not change the average rank, and an item whose
    review count is not plausible does not change the average review
    count. *)
Theorem averages_ignore_implausible (l1 l2 : list item) (it : item) :
  (~ plausible 999999 (bsr it) ->
   avgBSR (l1 ++ it :: l2) = avgBSR (l1 ++ l2)) /\
  (~ plausible 1000000 (reviews it) ->
   avgReviews (l1 ++ it :: l2) = avgReviews (l1 ++ l2)).
Proof.
  split; intros H.
  - rewrite !avgBSR_eq. now rewrite (@values_of_skip bsr 999999 l1 it l2 H).
  - rewrite !avgReviews_eq.
    now rewrite (@values_of_skip reviews 1000000 l1 it l2 H).
Qed.

Lemma averages_ignore_implausible_witness :
  avgBSR ([listing (Num 200) (Num 150)] ++ listing (Num 999999) NaN
            :: [listing (Num 50000) (Num 1000)])
  = avgBSR ([listing (Num 200) (Num 150)] ++ [listing (Num 50000) (Num 1000)])
  /\
  avgReviews ([listing (Num 200) (Num 150)] ++ listing (Num 999999) NaN
                :: [listing (Num 50000) (Num 1000)])
  = avgReviews ([listing (Num 200) (Num 150)]
                  ++ [listing (Num 50000) (Num 1000)]).
Proof.
  split.
  - apply (proj1 (averages_ignore_implausible _ _ _)).
    intros (z & Hz & Hr). simpl in Hz. injection Hz as <-. lia.
  - apply (proj2 (averages_ignore_implausible _ _ _)).
    intros (z & Hz & Hr). simpl in Hz. discriminate.
Defined.

(** X3. The two averages and the two counted scores do not depend
    on the order of the items. *)
Theorem results_do_not_depend_on_order (l l' : list item) :
  Permutation l l' ->
  avgBSR l = avgBSR l' /\ avgReviews l = avgReviews l' /\
  calculateProfitability l = calculateProfitability l' /\
  calculateCompetition l = calculateCompetition l'.
Proof.
  intros H. repeat split.
  - rewrite !avgBSR_eq. apply mean_permutation.
    now apply values_of_permutation.
  - rewrite !avgReviews_eq. apply mean_permutation.
    now apply values_of_permutation.
  - unfold calculateProfitability.
    now rewrite (@filter_length_permutation profitable l l' H).
  - unfold calculateCompetition.
    now rewrite (@filter_length_permutation competitive l l' H).
Qed.


Lemma results_do_not_depend_on_order_witness :
  let a := listing (Num 200) (Num 150) in
  let b := listing (Num 50000) (Num 1000) in
  avgBSR [a; b] = avgBSR [b; a] /\ avgReviews [a; b] = avgReviews [b; a] /\
  calculateProfitability [a; b] = calculateProfitability [b; a] /\
  calculateCompetition [a; b] = calculateCompetition [b; a].
Proof.
  apply results_do_not_depend_on_order. apply perm_swap.
Defined.

Module FieldFacts.









(** A string of digits reads as [NaN] only when it is empty. *)
Lemma parseInt_digits s :
  forallb digit s = true -> (parseInt s = NaN <-> s = []).
Proof.
  intros H. destruct s as [|c s]; [easy|].
  simpl in H. apply andb_true_iff in H as [Hc _].
  unfold parseInt. cbn [read_digits]. rewrite Hc.
  destruct (read_digits s (10 * 0 + digit_val c) 1) as [[v n] rest] eqn:E.
  apply read_digits_nonneg in E as [_ Hn];
    [|pose proof (digit_val_nonneg c Hc); lia].
  destruct n; [lia|]. split; discriminate.
Qed.

Lemma strip_commas_nil m :
  strip_commas m = [] <-> forallb (chr ",") m = true.
Proof.
  unfold strip_commas. induction m as [|c m IH]; simpl; [easy|].
  destruct (chr "," c); simpl; [exact IH|]. split; discriminate.
Qed.

End FieldFacts.
Import FieldFacts.


(** X5. The digit group [[0-9,]+] that a pattern captures is never
    empty and holds digits and commas only, so that [parseInt] is
    given digits only; the group reads as [NaN] exactly when it holds
    commas only. *)
Theorem digit_group_reads_nan_only_for_commas
        (pat : pattern) (text m1 : jsstring) :
  group pat = digits_commas ->
  exec pat text = Some m1 ->
  m1 <> [] /\
  forallb digit_or_comma m1 = true /\
  forallb digit (strip_commas m1) = true /\
  (parseInt (strip_commas m1) = NaN <-> forallb (chr ",") m1 = true).
Proof.
  intros Hg H.
  pose proof (@parseInt_argument pat text m1 Hg H) as Hd.
  apply exec_inv in H as (t & _ & H).
  apply (@digits_commas_group pat t m1 Hg) in H as [Hne Hdc].
  split; [assumption|]. split; [assumption|]. split; [assumption|].
  rewrite (parseInt_digits _ Hd). apply strip_commas_nil.
Qed.

Lemma digit_group_reads_nan_only_for_commas_witness :
  units "," <> [] /\
  forallb digit_or_comma (units ",") = true /\
  forallb digit (strip_commas (units ",")) = true /\
  (parseInt (strip_commas (units ",")) = NaN
   <-> forallb (chr ",") (units ",") = true).
Proof.
  apply (@digit_group_reads_nan_only_for_commas bsr4 (units "Ranked #, today")).
  - reflexivity.
  - vm_compute. reflexivity.
Defined.

(** X6. At most 20 items are returned, and never more than there
    are elements; the elements after the 20th have no effect on the
    list; and on a page of at most 20 elements the list is the
    concatenation of what its parts give, in page order. *)
Theorem scrape_items_sample_cap (els : list fragment) :
  List.length (scrape_items els) <= Nat.min (List.length els) 20 /\
  (forall more, 20 <= List.length els ->
                scrape_items (els ++ more) = scrape_items els) /\
  (forall more, List.length (els ++ more) <= 20 ->
                scrape_items (els ++ more)
                = scrape_items els ++ scrape_items more).
Proof.
  assert (L : forall l, List.length (flat_map kept l) <= List.length l).
  { induction l as [|x l IH]; simpl; [lia|].
    rewrite length_app. unfold kept at 1.
    destruct (extract_item x); simpl; lia. }
  split; [|split].
  - rewrite scrape_items_flat_map.
    pose proof (L (firstn 20 els)) as H. rewrite length_firstn in H. lia.
  - intros more H. rewrite !scrape_items_flat_map.
    rewrite firstn_app.
    replace (20 - List.length els) with 0 by lia.
    now rewrite firstn_O, app_nil_r.
  - intros more H. rewrite !scrape_items_flat_map.
    rewrite length_app in H.
    rewrite !firstn_all2 by (rewrite ?length_app; lia).
    apply flat_map_app.
Qed.

Module ScoreFacts.

Lemma filter_length_app (f : item -> bool) l more :
  List.length (filter f l) <= List.length (filter f (l ++ more)).
Proof. rewrite filter_app, length_app. lia. Qed.

Lemma profitable_not_competitive it :
  profitable it = true -> competitive it = false.
Proof.
  unfold profitable, competitive, js_ge, js_le.
  destruct (reviews it) as [|n]; [reflexivity|].
  rewrite !andb_true_iff, Z.leb_le. intros [_ H].
  apply Z.leb_gt. lia.
Qed.

Lemma disjoint_counts l :
  List.length (filter profitable l) + List.length (filter competitive l)
  <= List.length l.
Proof.
  induction l as [|it l IH]; simpl; [lia|].
  destruct (profitable it) eqn:P.
  - rewrite (profitable_not_competitive it P). simpl. lia.
  - destruct (competitive it); simpl; lia.
Qed.

Lemma profitability_value n m :
  (n <= m)%nat ->
  (value (if (6 <=? n)%nat then TierScore green 100 (Some n)
          else if (3 <=? n)%nat then TierScore yellow 50 (Some n)
               else TierScore red 0 (Some n))
   <= value (if (6 <=? m)%nat then TierScore green 100 (Some m)
             else if (3 <=? m)%nat then TierScore yellow 50 (Some m)
                  else TierScore red 0 (Some m)))%Z.
Proof.
  intros H.
  destruct (Nat.leb_spec 6 n), (Nat.leb_spec 6 m),
    (Nat.leb_spec 3 n), (Nat.leb_spec 3 m); simpl; lia.
Qed.

Lemma competition_value n m :
  (n <= m)%nat ->
  (value (if (m <=? 3)%nat then TierScore green 100 (Some m)
          else if (m <=? 6)%nat then TierScore yellow 50 (Some m)
               else TierScore red 0 (Some m))
   <= value (if (n <=? 3)%nat then TierScore green 100 (Some n)
             else if (n <=? 6)%nat then TierScore yellow 50 (Some n)
                  else TierScore red 0 (Some n)))%Z.
Proof.
  intros H.
  destruct (Nat.leb_spec n 3), (Nat.leb_spec m 3),
    (Nat.leb_spec n 6), (Nat.leb_spec m 6); simpl; lia.
Qed.

End ScoreFacts.
Import ScoreFacts.

Lemma scrape_items_sample_cap_witness :
  scrape_items (repeat (titled "Cooking Basics") 20 ++ [titled "Baking at Home"])
  = scrape_items (repeat (titled "Cooking Basics") 20) /\
  scrape_items ([titled "Cooking Basics"] ++ [titled "Baking at Home"])
  = scrape_items [titled "Cooking Basics"]
      ++ scrape_items [titled "Baking at Home"].
Proof.
  split.
  - apply (proj1 (proj2 (scrape_items_sample_cap _))). simpl. lia.
  - apply (proj2 (proj2 (scrape_items_sample_cap _))). simpl. lia.
Defined.

(** X7. Adding items to a list never lowers the value of the
    profitability score and never raises the value of the
    competition score. *)
Theorem more_items_move_scores_one_way (l more : list item) :
  (value (calculateProfitability l)
   <= value (calculateProfitability (l ++ more)))%Z /\
  (value (calculateCompetition (l ++ more))
   <= value (calculateCompetition l))%Z.
Proof.
  split.
  - apply profitability_value, filter_length_app.
  - apply competition_value, filter_length_app.
Qed.

(** X8. No item counts both for profitability and for
    competition, so the two counts add up to at most the number of
    items, which for a scraped page is firstPageCount and at most
    20. *)
Theorem profitable_and_competitive_are_disjoint (l : list item) (p : page) :
  (forall it, profitable it = true -> competitive it = false) /\
  (exists a b,
      count (calculateProfitability l) = Some a /\
      count (calculateCompetition l) = Some b /\
      a + b <= List.length l) /\
  (exists a b,
      count (profitability (calculateScores (scrape p))) = Some a /\
      count (competition (calculateScores (scrape p))) = Some b /\
      a + b <= firstPageCount (scrape p) <= 20).
Proof.
  assert (C : forall l', exists a b,
      count (calculateProfitability l') = Some a /\
      count (calculateCompetition l') = Some b /\
      a + b <= List.length l').
  { intros l'. exists (List.length (filter profitable l')),
      (List.length (filter competitive l')).
    split; [|split; [|apply disjoint_counts]].
    - unfold calculateProfitability.
      now destruct (6 <=? _); [|destruct (3 <=? _)].
    - unfold calculateCompetition.
      now destruct (_ <=? 3); [|destruct (_ <=? 6)]. }
  split; [exact profitable_not_competitive|]. split; [apply C|].
  destruct (C (scrape_items (bookElements p))) as (a & b & Ha & Hb & H).
  exists a, b. split; [exact Ha|]. split; [exact Hb|].
  unfold scrape. cbn [firstPageCount]. split; [exact H|].
  rewrite scrape_items_flat_map.
  assert (L : forall l0, List.length (flat_map kept l0) <= List.length l0).
  { induction l0 as [|x l0 IH]; simpl; [lia|].
    rewrite length_app. unfold kept at 1.
    destruct (extract_item x); simpl; lia. }
  pose proof (L (firstn 20 (bookElements p))) as H'.
  rewrite length_firstn in H'. lia.
Qed.

Lemma profitable_and_competitive_are_disjoint_witness :
  competitive (listing (Num 200) (Num 150)) = false.
Proof.
  apply (proj1 (profitable_and_competitive_are_disjoint [] (Page [] [] []))).
  reflexivity.
Defined.

(** X9. The overall score is one of 0, 17, 33, 50, 67, 83 and 100
    and differs from the mean of the three values by at most a
    third; it is 100 exactly when the three tiers are green and 0
    exactly when the three are red. *)
Theorem overallScore_values (d : data) :
  let s := calculateScores d in
  In (overallScore s) [0; 17; 33; 50; 67; 83; 100]%Z /\
  (overallScore s = 100%Z <->
   score (popularity s) = green /\ score (profitability s) = green
   /\ score (competition s) = green) /\
  (overallScore s = 0%Z <->
   score (popularity s) = red /\ score (profitability s) = red
   /\ score (competition s) = red) /\
  (-1 <= 3 * overallScore s
         - (value (popularity s) + value (profitability s)
            + value (competition s)) <= 1)%Z.
Proof.
  unfold calculateScores, calculatePopularity, calculateProfitability,
    calculateCompetition. cbv zeta.
  destruct (js_le (totalResults d) (Num 1000));
    [|destruct (js_le (totalResults d) (Num 3000))];
    (destruct (6 <=? _); [|destruct (3 <=? _)]);
    (destruct (_ <=? 3); [|destruct (_ <=? 6)]);
    cbn [popularity profitability competition overallScore score value];
    (split; [vm_compute; tauto|]);
    (split; [vm_compute; split; [discriminate || (intros _; repeat split)
                                |intros (? & ? & ?); discriminate || reflexivity]|]);
    (split; [vm_compute; split; [discriminate || (intros _; repeat split)
                                |intros (? & ? & ?); discriminate || reflexivity]|]);
    vm_compute; split; discriminate.
Qed.

Module BannerFacts.

Lemma extract_total_eq p :
  extract_total p =
  match exec totalPattern (totalText p) with
  | Some m1 => parseInt (strip_commas m1)
  | None => Num 0
  end.
Proof.
  unfold extract_total, totalText.
  destruct (info_bar p) as [|c t]; [|reflexivity].
  destruct (section_small p); reflexivity.
Qed.

Lemma totalPattern_starts_with_o c s :
  ci "o" c = false -> match_here totalPattern (c :: s) = None.
Proof. intros H. unfold match_here. simpl. now rewrite H. Qed.

Lemma digit_or_comma_not_o d : digit_or_comma d = true -> ci "o" d = false.
Proof.
  unfold digit_or_comma, digit, chr, ci, upper, code. cbn.
  intros H. apply orb_true_iff in H as [H|H].
  - apply andb_true_iff in H as [H1 H2].
    apply N.leb_le in H1. apply N.leb_le in H2.
    destruct (N.leb_spec 97 d); [lia|]. cbn. apply N.eqb_neq. lia.
  - apply N.eqb_eq in H. subst d. reflexivity.
Qed.

Lemma digit_or_comma_not_ws d : digit_or_comma d = true -> ws d = false.
Proof.
  unfold digit_or_comma, digit, chr, ws, white_space, line_terminator, code.
  cbn. intros H. apply orb_true_iff in H as [H|H].
  - apply andb_true_iff in H as [H1 H2].
    apply N.leb_le in H1. apply N.leb_le in H2.
    repeat (apply orb_false_iff; split);
      try (apply N.eqb_neq; lia).
    apply andb_false_iff. left. apply N.leb_gt. lia.
  - apply N.eqb_eq in H. subst d. reflexivity.
Qed.

Lemma totalPattern_here (over : bool) ds post :
  ds <> [] -> forallb digit_or_comma ds = true ->
  match_here totalPattern
    (units "of " ++ (if over then units "over " else [])
       ++ ds ++ units " results" ++ post)
  = Some ds.
Proof.
  intros Hne Hds. destruct ds as [|d ds]; [contradiction|].
  simpl in Hds. apply andb_true_iff in Hds as [Hd Hds].
  pose proof (digit_or_comma_not_o d Hd) as Ho.
  pose proof (digit_or_comma_not_ws d Hd) as Hw.
  unfold match_here, totalPattern. cbn [before group after].
  destruct over; cbn -[List.length firstn];
    rewrite ?Hw, ?Ho, ?Hd; cbn -[List.length firstn]; rewrite ?Hd.
  all: erewrite star_greedy_all; [reflexivity|assumption|reflexivity|].
  all: cbn -[List.length firstn].
  all: match goal with
       | |- Some (firstn (_ - List.length ?t) (?x :: ?y ++ ?t)) = _ =>
           change (x :: y ++ t) with ((x :: y) ++ t)
       end.
  all: now rewrite firstn_app_sub.
Qed.

Lemma exec_totalPattern_found pre (over : bool) ds post :
  forallb (fun c => negb (ci "o" c)) pre = true ->
  ds <> [] -> forallb digit_or_comma ds = true ->
  exec totalPattern
    (pre ++ units "of " ++ (if over then units "over " else [])
       ++ ds ++ units " results" ++ post)
  = Some ds.
Proof.
  intros Hpre Hne Hds. rewrite exec_skip.
  - apply exec_here. now apply totalPattern_here.
  - intros p1 c p2 E. apply totalPattern_starts_with_o.
    pose proof (@forallb_split _ _ _ _ _ _ Hpre E) as Hc.
    now apply negb_true_iff in Hc.
Qed.

End BannerFacts.
Import BannerFacts.

(** X10. When the banner pattern finds nothing in the text it
    reads, the total is 0 and the popularity is green/100; the
    section text is read only when the info bar is empty, not when
    the info bar holds no banner; a total of [NaN] gives the
    popularity red/0. *)
Theorem total_without_banner (p : page) :
  (exec totalPattern (totalText p) = None ->
   extract_total p = Num 0 /\
   popularity (calculateScores (scrape p)) = TierScore green 100 None) /\
  (info_bar p <> [] ->
   forall section,
     extract_total p
     = extract_total (Page (info_bar p) section (bookElements p))) /\
  (extract_total p = NaN ->
   popularity (calculateScores (scrape p)) = TierScore red 0 None).
Proof.
  split; [|split].
  - intros H. rewrite extract_total_eq, H. split; [reflexivity|].
    unfold calculateScores, scrape. cbn [popularity totalResults].
    now rewrite extract_total_eq, H.
  - intros H section. rewrite !extract_total_eq. unfold totalText.
    cbn [info_bar]. now destruct (info_bar p).
  - intros H. unfold calculateScores, scrape. cbn [popularity totalResults].
    now rewrite H.
Qed.

Lemma total_without_banner_witness :
  let p := Page (units "Results") (units "1-16 of 200 results") [] in
  (extract_total p = Num 0 /\
   popularity (calculateScores (scrape p)) = TierScore green 100 None) /\
  extract_total p = extract_total (Page (info_bar p) [] (bookElements p)) /\
  popularity (calculateScores (scrape (Page (units "of , results") [] [])))
  = TierScore red 0 None.
Proof.
  split; [|split].
  - apply (proj1 (total_without_banner _)). vm_compute. reflexivity.
  - apply (proj1 (proj2 (total_without_banner _))). discriminate.
  - apply (proj2 (proj2 (total_without_banner _))).
    vm_compute. reflexivity.
Defined.

(** X11. A banner text of the form pre "of " digits " results" or
    pre "of over " digits " results", where pre holds no letter o or
    O, gives the total that the digit group reads to, commas
    removed, and the popularity of that total. *)
Theorem total_from_banner (p : page) (pre ds post : jsstring) (over : bool) :
  totalText p = pre ++ units "of " ++ (if over then units "over " else [])
                    ++ ds ++ units " results" ++ post ->
  forallb (fun c => negb (ci "o" c)) pre = true ->
  ds <> [] -> forallb digit_or_comma ds = true ->
  extract_total p = parseInt (strip_commas ds) /\
  popularity (calculateScores (scrape p))
  = calculatePopularity (parseInt (strip_commas ds)).
Proof.
  intros E Hpre Hne Hds.
  assert (H : extract_total p = parseInt (strip_commas ds)).
  { rewrite extract_total_eq, E.
    now rewrite (@exec_totalPattern_found pre over ds post Hpre Hne Hds). }
  split; [exact H|].
  unfold calculateScores, scrape. cbn [popularity totalResults].
  now rewrite H.
Qed.

Lemma total_from_banner_witness :
  let p := Page (units "1-16 of over 4,000 results for") [] [] in
  extract_total p = Num 4000 /\
  popularity (calculateScores (scrape p)) = TierScore red 0 None.
Proof.
  apply (@total_from_banner _ (units "1-16 ") (units "4,000") (units " for") true).
  - reflexivity.
  - reflexivity.
  - discriminate.
  - reflexivity.
Defined.

Module MarkFacts.

Lemma has_rank_mark_suffix t s :
  suffix t s -> has_rank_mark t = true -> has_rank_mark s = true.
Proof.
  intros [p ->] H. induction p as [|c p IH]; [assumption|].
  simpl. rewrite IH. apply orb_true_r.
Qed.

(** A greedy star before a continuation that always accepts
    accepts. *)
Lemma star_greedy_accepts (R : Type) p s (k : jsstring -> option R) :
  (forall t, k t <> None) -> star_greedy p s k <> None.
Proof.
  intros Hk. induction s as [|c s IH]; simpl; [apply Hk|].
  destruct (p c); [|apply Hk].
  destruct (star_greedy p s k); [discriminate|contradiction].
Qed.

(** The fourth pattern matches exactly at a sharp sign that a digit
    or a comma follows. *)
Lemma bsr4_here c s :
  match_here bsr4 (c :: s) = None <->
  chr "#" c && negb (stops digit_or_comma s) = false.
Proof.
  unfold match_here, bsr4, sharp, digits_commas, Plus.
  cbn [before group after run].
  destruct (chr "#" c); [|easy].
  destruct s as [|d s]; [easy|]. cbn [stops andb].
  destruct (digit_or_comma d); [|easy]. cbn [negb].
  split; [|discriminate]. intros H. exfalso.
  revert H. apply star_greedy_accepts. discriminate.
Qed.

Lemma exec_bsr4 s : exec bsr4 s = None <-> has_rank_mark s = false.
Proof.
  induction s as [|c s IH]; [easy|].
  cbn [exec has_rank_mark].
  destruct (match_here bsr4 (c :: s)) eqn:E.
  - split; [discriminate|]. intros H. apply orb_false_iff in H as [H _].
    apply bsr4_here in H. congruence.
  - apply bsr4_here in E. rewrite E. exact IH.
Qed.

(** Where a pattern reads a sharp sign and then the digit group,
    the text holds the mark. *)
Lemma sharp_then_group A aft s m :
  match_here (Pattern (Cat A sharp) digits_commas aft) s = Some m ->
  has_rank_mark s = true.
Proof.
  unfold match_here. cbn [before group after run]. intros H.
  apply run_inv in H as (t & Ht & H).
  apply (has_rank_mark_suffix Ht).
  unfold sharp in H. cbn [run] in H.
  destruct t as [|c t]; [discriminate|].
  destruct (chr "#" c) eqn:Ec; [|discriminate].
  unfold digits_commas, Plus in H. cbn [run] in H.
  destruct t as [|d t]; [discriminate|].
  destruct (digit_or_comma d) eqn:Ed; [|discriminate].
  cbn [has_rank_mark stops]. now rewrite Ec, Ed.
Qed.

Lemma exec_mark pat A aft s m :
  (forall t, match_here pat t
             = match_here (Pattern (Cat A sharp) digits_commas aft) t) ->
  exec pat s = Some m -> has_rank_mark s = true.
Proof.
  intros E H. apply exec_inv in H as (t & Ht & H).
  rewrite E in H. apply sharp_then_group in H.
  now apply (has_rank_mark_suffix Ht).
Qed.

Lemma no_mark_no_match text :
  has_rank_mark text = false ->
  forall p, In p bsrPatterns -> exec p text = None.
Proof.
  intros H p Hp.
  destruct (exec p text) as [m|] eqn:E; [|reflexivity].
  exfalso. assert (has_rank_mark text = true); [|congruence].
  destruct Hp as [<-|[<-|[<-|[<-|[]]]]].
  - now apply (@exec_mark bsr1 best_sellers_rank Eps text m).
  - now apply (@exec_mark bsr2 Eps (after bsr2) text m).
  - apply exec_bsr3_some in E as (t & Ht & E).
    apply (has_rank_mark_suffix Ht).
    now apply (@sharp_then_group best_sellers_rank Eps t m).
  - now apply (@exec_mark bsr4 Eps Eps text m).
Qed.

Lemma run_cls_inv_one (R : Type) p s (k : jsstring -> option R) x :
  run (Cls p) s k = Some x ->
  exists c s', s = c :: s' /\ p c = true /\ k s' = Some x.
Proof.
  simpl. destruct s as [|c s]; [discriminate|].
  destruct (p c) eqn:E; [eauto|discriminate].
Qed.

(** When what follows always accepts, the greedy star takes the
    whole run of the class. *)
Lemma star_greedy_maximal (R : Type) p s (k : jsstring -> option R) x :
  (forall t, k t <> None) ->
  star_greedy p s k = Some x ->
  exists ds t, s = ds ++ t /\ forallb p ds = true
               /\ stops p t = true /\ k t = Some x.
Proof.
  intros Hk. induction s as [|c s IH]; cbn [star_greedy]; intros H.
  - now exists [], [].
  - destruct (p c) eqn:E.
    + destruct (star_greedy p s k) as [r|] eqn:F.
      * injection H as ->.
        destruct (IH eq_refl) as (ds & t & -> & Hds & Ht & Hx).
        exists (c :: ds), t. cbn [app forallb]. now rewrite E, Hds.
      * exfalso. revert F. now apply star_greedy_accepts.
    + exists [], (c :: s). cbn [app forallb stops]. now rewrite E.
Qed.

(** The group of a pattern that reads a sharp sign, the digit
    group and nothing more stands in the text after a sharp sign,
    and is the whole run of digits and commas there. *)
Lemma group_in_text_open A s m :
  match_here (Pattern (Cat A sharp) digits_commas Eps) s = Some m ->
  exists a post, s = a ++ units "#" ++ m ++ post
                 /\ stops digit_or_comma post = true.
Proof.
  unfold match_here. cbn [before group after run]. intros H.
  apply run_inv in H as (u & [a ->] & H).
  unfold sharp in H. cbn [run] in H.
  destruct u as [|c u]; [discriminate|].
  destruct (chr "#" c) eqn:Ec; [|discriminate].
  apply N.eqb_eq in Ec. subst c.
  unfold digits_commas, Plus in H. cbn [run] in H.
  destruct u as [|d u]; [discriminate|].
  destruct (digit_or_comma d) eqn:Ed; [|discriminate].
  apply star_greedy_maximal in H as (ds & t & -> & Hds & Ht & H);
    [|discriminate].
  change (d :: ds ++ t) with ((d :: ds) ++ t) in H.
  rewrite firstn_app_sub in H. injection H as <-.
  exists a, t. split; [reflexivity|assumption].
Qed.

(** The same where white space must follow the group. *)
Lemma group_in_text_ws A aft s m :
  match_here (Pattern (Cat A sharp) digits_commas (Cat (Plus ws) aft)) s
  = Some m ->
  exists a post, s = a ++ units "#" ++ m ++ post
                 /\ stops digit_or_comma post = true.
Proof.
  unfold match_here. cbn [before group after]. intros H.
  change (run A s
            (fun s0 => run sharp s0
               (fun s1 => run digits_commas s1
                  (fun s2 => run (Cat (Plus ws) aft) s2
                     (fun _ => Some (firstn (List.length s1
                                             - List.length s2) s1)))))
          = Some m) in H.
  apply run_inv in H as (u & [a ->] & H).
  unfold sharp in H.
  apply run_cls_inv_one in H as (c & u' & -> & Ec & H).
  apply N.eqb_eq in Ec. subst c.
  unfold digits_commas, Plus in H.
  apply run_cls_inv in H as (d & u & -> & Ed & H).
  cbn [run] in H.
  apply star_greedy_run in H as (ds & t & -> & Hds & H).
  assert (Hs : stops digit_or_comma t = true).
  { destruct t as [|w t']; [discriminate|].
    destruct (ws w) eqn:Ew; [|discriminate].
    cbn [stops]. destruct (digit_or_comma w) eqn:Dw; [|reflexivity].
    apply digit_or_comma_not_ws in Dw. congruence. }
  assert (Hm : Some (firstn (List.length (d :: ds ++ t) - List.length t)
                            (d :: ds ++ t)) = Some m).
  { destruct t as [|w t']; [discriminate|].
    destruct (ws w); [|discriminate].
    apply star_greedy_inv in H as (t1 & _ & H).
    now apply run_inv in H as (t2 & _ & H). }
  clear H. rename Hm into H.
  change (d :: ds ++ t) with ((d :: ds) ++ t) in H.
  rewrite firstn_app_sub in H. injection H as <-.
  exists a, t. split; [reflexivity|assumption].
Qed.

(** The digit group that a rank pattern reads stands in the text,
    after a sharp sign. *)
Lemma rank_group_in_text p text m :
  In p bsrPatterns -> exec p text = Some m ->
  exists pre post, text = pre ++ units "#" ++ m ++ post
                   /\ stops digit_or_comma post = true.
Proof.
  assert (G : forall t a post (q : jsstring),
             suffix t text -> t = a ++ q ++ post ->
             exists pre, text = pre ++ q ++ post).
  { intros t a post q [pre ->] ->. exists (pre ++ a).
    now rewrite <- app_assoc. }
  intros Hp H. destruct Hp as [<-|[<-|[<-|[<-|[]]]]].
  - apply exec_inv in H as (t & Ht & H).
    apply (@group_in_text_open best_sellers_rank t m) in H
      as (a & post & E & Hs).
    destruct (G t a post (units "#" ++ m) Ht) as [pre E'].
    { now rewrite <- app_assoc. }
    exists pre, post. split; [|exact Hs]. now rewrite E', <- app_assoc.
  - apply exec_inv in H as (t & Ht & H).
    apply (@group_in_text_ws Eps (cats [liti "in"; Plus ws; liti "Books"])
             t m) in H as (a & post & E & Hs).
    destruct (G t a post (units "#" ++ m) Ht) as [pre E'].
    { now rewrite <- app_assoc. }
    exists pre, post. split; [|exact Hs]. now rewrite E', <- app_assoc.
  - apply exec_bsr3_some in H as (t & Ht & H).
    apply (@group_in_text_open best_sellers_rank t m) in H
      as (a & post & E & Hs).
    destruct (G t a post (units "#" ++ m) Ht) as [pre E'].
    { now rewrite <- app_assoc. }
    exists pre, post. split; [|exact Hs]. now rewrite E', <- app_assoc.
  - apply exec_inv in H as (t & Ht & H).
    apply (@group_in_text_open Eps t m) in H as (a & post & E & Hs).
    destruct (G t a post (units "#" ++ m) Ht) as [pre E'].
    { now rewrite <- app_assoc. }
    exists pre, post. split; [|exact Hs]. now rewrite E', <- app_assoc.
Qed.

End MarkFacts.
Import MarkFacts.

(** X12. No rank pattern matches a text exactly when the text
    holds no sharp sign directly followed by a digit or a comma; the
    rank of such a text is the sentinel 999999.  The rank of any
    other text is read from a digit group of the text: a run of
    digits and commas that stands in the text directly after a sharp
    sign and is not followed by a further digit or comma. *)
Theorem rank_is_sentinel_without_mark (text : jsstring) :
  (has_rank_mark text = false <->
   forall p, In p bsrPatterns -> exec p text = None) /\
  (has_rank_mark text = false -> extract_bsr text = Num 999999) /\
  (has_rank_mark text = true ->
   exists pre m1 post,
     text = pre ++ units "#" ++ m1 ++ post /\
     m1 <> [] /\ forallb digit_or_comma m1 = true /\
     stops digit_or_comma post = true /\
     extract_bsr text = parseInt (strip_commas m1)).
Proof.
  split; [|split].
  - split; [apply no_mark_no_match|].
    intros H. apply exec_bsr4. apply H. simpl. tauto.
  - intros H. unfold extract_bsr, extract_bsr_with.
    apply bsr_loop_none. now apply no_mark_no_match.
  - intros H.
    assert (G : forall pat m, In pat bsrPatterns ->
                group pat = digits_commas ->
                exec pat text = Some m ->
                exists pre m1 post,
                  text = pre ++ units "#" ++ m1 ++ post /\
                  m1 <> [] /\ forallb digit_or_comma m1 = true /\
                  stops digit_or_comma post = true /\
                  parseInt (strip_commas m) = parseInt (strip_commas m1)).
    { intros pat m Hin Hg E.
      destruct (@rank_group_in_text pat text m Hin E) as (pre & post & Et & Hs).
      apply exec_inv in E as (t & _ & E).
      apply (@digits_commas_group pat t m Hg) in E as [Hne Hdc].
      exists pre, m, post. repeat split; assumption. }
    unfold extract_bsr, extract_bsr_with, bsrPatterns. cbn [bsr_loop].
    destruct (exec bsr1 text) as [m|] eqn:E1;
      [apply (G bsr1 m); [simpl; tauto|reflexivity|exact E1]|].
    destruct (exec bsr2 text) as [m|] eqn:E2;
      [apply (G bsr2 m); [simpl; tauto|reflexivity|exact E2]|].
    destruct (exec bsr3 text) as [m|] eqn:E3;
      [apply (G bsr3 m); [simpl; tauto|reflexivity|exact E3]|].
    destruct (exec bsr4 text) as [m|] eqn:E4;
      [apply (G bsr4 m); [simpl; tauto|reflexivity|exact E4]|].
    apply exec_bsr4 in E4. congruence.
Qed.

Lemma rank_is_sentinel_without_mark_witness :
  extract_bsr (units "Ranked # 12 in Books") = Num 999999 /\
  (exists pre m1 post,
     units "No. #12 in Books" = pre ++ units "#" ++ m1 ++ post /\
     m1 <> [] /\ forallb digit_or_comma m1 = true /\
     stops digit_or_comma post = true /\
     extract_bsr (units "No. #12 in Books") = parseInt (strip_commas m1)).
Proof.
  split.
  - apply (proj1 (proj2 (rank_is_sentinel_without_mark _))). reflexivity.
  - apply (proj2 (proj2 (rank_is_sentinel_without_mark _))). reflexivity.
Defined.

(** X13. The answer is the result (status 200) only when the page
    was rendered and the browser closed without an error, and then
    it echoes the keyword and carries the scraped data and the
    scores computed from that data.  The server error (status 500)
    carries the message of the step that failed, or of
    [browser.close()] when that throws in [finally], a rendered page
    included.  For a keyword that passes validation the browser is
    closed last on every path on which it was launched, and nothing
    is closed when the launch itself fails. *)
Theorem analyze_outcomes (browser : query_value -> outcome)
        (keyword : query_value) :
  (forall k d s, fst (analyze browser keyword) = Ok k d s ->
     k = keyword /\
     exists p, browser keyword = Rendered p None /\ d = scrape p
               /\ s = calculateScores d
               /\ snd (analyze browser keyword)
                  = [Launch; Navigate keyword; Close]) /\
  (forall e m, fst (analyze browser keyword) = ServerError e m ->
     e = units "Failed to analyze keyword" /\
     (browser keyword = LaunchFails m
      \/ (exists m0 closing,
             (browser keyword = SetupFails m0 closing
              \/ browser keyword = PageFails m0 closing
              \/ browser keyword = ContentFails m0 closing)
             /\ m = thrown m0 closing)
      \/ exists p, browser keyword = Rendered p (Some m))) /\
  (not_ keyword = false ->
   (forall m, browser keyword <> LaunchFails m) ->
   last (snd (analyze browser keyword)) Launch = Close) /\
  (not_ keyword = false ->
   forall m, browser keyword = LaunchFails m ->
             analyze browser keyword
             = (ServerError (units "Failed to analyze keyword") m, [Launch])).
Proof.
  unfold analyze, scrapeAmazonData.
  destruct (not_ keyword).
  { repeat split; discriminate. }
  split; [|split; [|split]].
  - intros k d s H.
    destruct (browser keyword) as [m1|m1 c|m1 c|m1 c|p [m1|]];
      cbn in H; try discriminate.
    injection H as <- <- <-. split; [reflexivity|].
    exists p. repeat split.
  - intros e m H.
    destruct (browser keyword) as [m1|m1 c|m1 c|m1 c|p [m1|]];
      cbn in H; try discriminate; injection H as <- <-;
      (split; [reflexivity|]).
    + now left.
    + right. left. exists m1, c. split; [now left|reflexivity].
    + right. left. exists m1, c. split; [right; now left|reflexivity].
    + right. left. exists m1, c. split; [right; now right|reflexivity].
    + right. right. now exists p.
  - intros _ H.
    destruct (browser keyword) as [m1|m1 c|m1 c|m1 c|p [m1|]];
      cbn; try reflexivity.
    exfalso. now apply (H m1).
  - intros _ m H. now rewrite H.
Qed.

Lemma analyze_outcomes_witness :
  last (snd (analyze never_renders (QString (units "cooking")))) Launch
  = Close /\
  analyze (fun _ => LaunchFails (units "Failed to launch the browser"))
          (QString (units "cooking"))
  = (ServerError (units "Failed to analyze keyword")
                 (units "Failed to launch the browser"), [Launch]).
Proof.
  split.
  - apply (proj1 (proj2 (proj2 (analyze_outcomes never_renders
                                  (QString (units "cooking")))))).
    + reflexivity.
    + discriminate.
  - apply (proj2 (proj2 (proj2 (analyze_outcomes
                                  (fun _ => LaunchFails _)
                                  (QString (units "cooking")))))
             eq_refl _ eq_refl).
Defined.
